(** * gatsby-parallel-runner: the job dispatcher of [src/build.js]

    A shallow embedding of the dispatcher that sits between the forked
    [gatsby build] process and the Pub/Sub worker pool: the [jobsInProcess]
    correlation map, the listeners [gatsbyProcess.on('message')] and
    [pubsubMessageHandler], the asynchronous function [processImage] with its
    finalisation callback and its timeout closure.

    JavaScript runs every listener to completion on one thread; an [await]
    suspends the running function until the awaited operation settles.  The
    embedding follows that: a listener is a program [prog] of primitive
    effects, an [await] parks a continuation in the state, and the environment
    drives the dispatcher with [event]s (a message arrives, an I/O operation
    settles, a timer fires, time passes). *)

From Stdlib Require Import ZArith NArith List Ascii.
From stdpp Require Import gmap strings list pretty.

Open Scope Z_scope.

(** ** Data *)

(** One element of [msg.inputPaths]. *)
Record input_path := { ip_path : string }.

(** The payload of a [JOB_CREATED] message.  [inputPaths] may be missing
    altogether, which JavaScript reads as [undefined]. *)
Record job := {
  job_id : string;
  job_name : string;
  job_inputPaths : option (list input_path);
  job_outputDir : string;
  job_args : string
}.

(** A message received from the forked gatsby process. *)
Record gatsby_message := { g_type : string; g_payload : job }.

(** One element of [result.output] in a worker's answer. *)
Record transform := { t_outputPath : string; t_data : string; t_args : string }.

(** [pubSubMessage.payload]: the job id, and [output] when the worker
    completed (absent otherwise). *)
Record worker_payload := {
  p_id : string;
  p_output : option (list transform);
  p_error : option string
}.

(** The decoded body of a Pub/Sub message. *)
Record pubsub_message := { w_type : string; w_payload : worker_payload }.

(** What [gatsbyProcess.send] is given. *)
Inductive out_payload :=
| FailurePayload (id error : string)
    (* { id, error } *)
| ResultPayload (id : string) (output : list (string * string))
    (* { id, result: { output: [{ outputPath, args }] } } *)
| ForwardedPayload (p : worker_payload).
    (* pubSubMessage.payload, passed on as received *)

Record ipc_message := { msg_type : string; msg_payload : out_payload }.

Definition payload_id (p : out_payload) : string :=
  match p with
  | FailurePayload id _ => id
  | ResultPayload id _ => id
  | ForwardedPayload p => p_id p
  end.

(** The object that is serialised and handed to the workers. *)
Record envelope := {
  env_file : list Byte.byte;
  env_action : string;
  env_topic : option string;
  env_id : string
}.

Inductive js_error :=
| ReferenceError (identifier : string)
| TypeError (what : string)
| IoError (what : string).

Inductive log_level := Trace | Debug | Warn | Error.

(** The variables [file] and [msg] of one call of [processImage], captured
    both by the callback stored in [jobsInProcess] and by the closure handed
    to [setTimeout]. *)
Record captured := { c_file : string; c_msg : job }.

Module MESSAGE_TYPES.
Definition LOG_ACTION : string := "LOG_ACTION".
Definition JOB_CREATED : string := "JOB_CREATED".
Definition JOB_COMPLETED : string := "JOB_COMPLETED".
Definition JOB_FAILED : string := "JOB_FAILED".
Definition ACTIVITY_START : string := "ACTIVITY_START".
Definition ACTIVITY_END : string := "ACTIVITY_END".
Definition ACTIVITY_SUCCESS : string := "ACTIVITY_SUCCESS".
Definition ACTIVITY_ERROR : string := "ACTIVITY_ERROR".
End MESSAGE_TYPES.

Definition MAX_JOB_TIME : Z := 60000.
Definition MAX_PUB_SUB_SIZE : Z := 1024 * 1024 * 5.

(** A template literal renders a missing environment variable as the text
    [undefined]. *)
Definition template (v : option string) : string :=
  match v with Some s => s | None => "undefined" end.

(** ** [Buffer.prototype.toString('base64')] *)

Definition base64_alphabet : string :=
  "ABCDEFGHIJKLMNOPQRSTUVWXYZabcdefghijklmnopqrstuvwxyz0123456789+/".

Definition base64_digit (n : N) : ascii :=
  match String.get (N.to_nat (N.land n 63)) base64_alphabet with
  | Some c => c
  | None => "="%char
  end.

Fixpoint base64 (bs : list Byte.byte) : string :=
  match bs with
  | [] => EmptyString
  | [a] =>
      let n := N.shiftl (Byte.to_N a) 16 in
      String (base64_digit (N.shiftr n 18))
        (String (base64_digit (N.shiftr n 12)) "==")
  | [a; b] =>
      let n := N.lor (N.shiftl (Byte.to_N a) 16) (N.shiftl (Byte.to_N b) 8) in
      String (base64_digit (N.shiftr n 18))
        (String (base64_digit (N.shiftr n 12))
           (String (base64_digit (N.shiftr n 6)) "="))
  | a :: b :: c :: rest =>
      let n := N.lor (N.lor (N.shiftl (Byte.to_N a) 16) (N.shiftl (Byte.to_N b) 8))
                 (Byte.to_N c) in
      String (base64_digit (N.shiftr n 18))
        (String (base64_digit (N.shiftr n 12))
           (String (base64_digit (N.shiftr n 6))
              (String (base64_digit n) (base64 rest))))
  end.

(** The place of a character in the base64 alphabet. *)
Definition base64_value (c : ascii) : option N :=
  (fix find (s : string) (k : N) : option N :=
     match s with
     | EmptyString => None
     | String c' rest => if Ascii.eqb c c' then Some k else find rest (N.succ k)
     end) base64_alphabet 0%N.

(** ** Effects *)

(** The asynchronous operations the dispatcher awaits. *)
Inductive io_request :=
| ReadFile (file : string)
    (* fs.readFile(file) *)
| Publish (topic : option string) (data : list Byte.byte)
    (* pubSubClient.topic(topic).publish(data) *)
| SaveBlob (bucket object content : string)
    (* storage.bucket(bucket).file(object).save(content) *)
| WriteOutputs (outputDir : string) (outs : list transform).
    (* Promise.all(result.output.map(mkdirp-then-writeFile)) *)

Inductive io_result :=
| Fulfilled (data : list Byte.byte)
| Rejected (reason : string).

(** Where an asynchronous function resumes once the awaited operation has
    settled, with the variables it still needs. *)
Inductive continuation :=
| AfterRead (c : captured)
    (* processImage, after [await fs.readFile(file)] *)
| AfterSend (c : captured)
    (* processImage, after the awaited publish or save *)
| AfterWrites (c : captured) (outs : list transform).
    (* the finalisation callback, after [await Promise.all(...)] *)

(** A listener body: primitive effects in program order. *)
Inductive prog :=
| Return
| Throw (e : js_error)
    (* an exception that leaves a listener *)
| Reject (e : js_error)
    (* an exception that leaves an async function: its promise rejects *)
| Ack (k : prog)
| Log (lvl : log_level) (text : string) (k : prog)
| Send (m : ipc_message) (k : prog)
    (* gatsbyProcess.send(m) *)
| JobsHas (id : string) (k : bool -> prog)
| JobsGet (id : string) (k : option captured -> prog)
| JobsSet (id : string) (c : captured) (k : prog)
| JobsDelete (id : string) (k : prog)
| SetTimeout (c : captured) (ms : Z) (k : prog)
| Await (r : io_request) (k : continuation).

Inductive task :=
| PendingIo (r : io_request) (k : continuation)
| Timer (due : Z) (c : captured).

Record state := {
  jobsInProcess : gmap string captured;
  clock : Z;
  pending : list task;
  sent : list ipc_message;
  started : list io_request;
  acked : nat;
  logged : list (log_level * string);
  uncaught : option js_error;
  rejections : list js_error
}.

Definition init : state :=
  {| jobsInProcess := ∅; clock := 0; pending := []; sent := []; started := [];
     acked := 0; logged := []; uncaught := None; rejections := [] |}.

Definition with_jobs (f : gmap string captured -> gmap string captured) (st : state) : state :=
  {| jobsInProcess := f (jobsInProcess st); clock := clock st; pending := pending st;
     sent := sent st; started := started st; acked := acked st; logged := logged st;
     uncaught := uncaught st; rejections := rejections st |}.

Definition with_clock (t : Z) (st : state) : state :=
  {| jobsInProcess := jobsInProcess st; clock := t; pending := pending st;
     sent := sent st; started := started st; acked := acked st; logged := logged st;
     uncaught := uncaught st; rejections := rejections st |}.

Definition with_pending (f : list task -> list task) (st : state) : state :=
  {| jobsInProcess := jobsInProcess st; clock := clock st; pending := f (pending st);
     sent := sent st; started := started st; acked := acked st; logged := logged st;
     uncaught := uncaught st; rejections := rejections st |}.

Definition emit (m : ipc_message) (st : state) : state :=
  {| jobsInProcess := jobsInProcess st; clock := clock st; pending := pending st;
     sent := sent st ++ [m]; started := started st; acked := acked st;
     logged := logged st; uncaught := uncaught st; rejections := rejections st |}.

Definition start (r : io_request) (k : continuation) (st : state) : state :=
  {| jobsInProcess := jobsInProcess st; clock := clock st;
     pending := pending st ++ [PendingIo r k];
     sent := sent st; started := started st ++ [r]; acked := acked st;
     logged := logged st; uncaught := uncaught st; rejections := rejections st |}.

Definition ack (st : state) : state :=
  {| jobsInProcess := jobsInProcess st; clock := clock st; pending := pending st;
     sent := sent st; started := started st; acked := S (acked st);
     logged := logged st; uncaught := uncaught st; rejections := rejections st |}.

Definition log (lvl : log_level) (text : string) (st : state) : state :=
  {| jobsInProcess := jobsInProcess st; clock := clock st; pending := pending st;
     sent := sent st; started := started st; acked := acked st;
     logged := logged st ++ [(lvl, text)]; uncaught := uncaught st;
     rejections := rejections st |}.

Definition throw (e : js_error) (st : state) : state :=
  {| jobsInProcess := jobsInProcess st; clock := clock st; pending := pending st;
     sent := sent st; started := started st; acked := acked st;
     logged := logged st; uncaught := Some e; rejections := rejections st |}.

Definition reject (e : js_error) (st : state) : state :=
  {| jobsInProcess := jobsInProcess st; clock := clock st; pending := pending st;
     sent := sent st; started := started st; acked := acked st;
     logged := logged st; uncaught := uncaught st;
     rejections := rejections st ++ [e] |}.

(** Runs a listener body to its end or to its first [await]. *)
Fixpoint exec (p : prog) (st : state) : state :=
  match p with
  | Return => st
  | Throw e => throw e st
  | Reject e => reject e st
  | Ack k => exec k (ack st)
  | Log lvl text k => exec k (log lvl text st)
  | Send m k => exec k (emit m st)
  | JobsHas id k => exec (k (bool_decide (is_Some (jobsInProcess st !! id)))) st
  | JobsGet id k => exec (k (jobsInProcess st !! id)) st
  | JobsSet id c k => exec k (with_jobs (insert id c) st)
  | JobsDelete id k => exec k (with_jobs (delete id) st)
  | SetTimeout c ms k => exec k (with_pending (fun ts => ts ++ [Timer (clock st + ms) c]) st)
  | Await r k => start r k st
  end.

(** What the dispatcher takes from its environment: [process.env.TOPIC],
    [process.env.WORKER_TOPIC], and Node's serialisation of the envelope,
    [Buffer.from(JSON.stringify(_))]. *)
Class Runtime := {
  TOPIC : option string;
  WORKER_TOPIC : option string;
  serialize : envelope -> list Byte.byte
}.

(** ** The listeners of [build.js] *)

Section Dispatcher.

Context {rt : Runtime}.

Definition bucketName : string := "event-processing-" +:+ template WORKER_TOPIC.

Definition failed (id error : string) : ipc_message :=
  {| msg_type := MESSAGE_TYPES.JOB_FAILED; msg_payload := FailurePayload id error |}.

(** [!msg.inputPaths || msg.inputPaths.length > 1]: an array, even an empty
    one, is truthy. *)
Definition wrong_input_paths (msg : job) : bool :=
  match job_inputPaths msg with
  | None => true
  | Some paths => (1 <? length paths)%nat
  end.

(** [processImage] up to its first [await]. *)
Definition processImage (msg : job) : prog :=
  if wrong_input_paths msg then
    Log Error "Wrong number of input paths in msg: "
      (Send (failed (job_id msg) "Wrong number of input paths") Return)
  else
    match job_inputPaths msg with
    | Some (first :: _) =>
        let file := ip_path first in
        Await (ReadFile file) (AfterRead {| c_file := file; c_msg := msg |})
    | _ =>
        (* msg.inputPaths[0] is undefined *)
        Reject (TypeError "Cannot read property 'path' of undefined")
    end.

(** [processImage] from the registration of the callback to the awaited
    publish or save. *)
Definition afterRead (c : captured) (r : io_result) : prog :=
  match r with
  | Rejected reason => Reject (IoError reason)
  | Fulfilled data =>
      let msg := c_msg c in
      JobsSet (job_id msg) c
        (let pubsubMsg :=
           serialize {| env_file := data; env_action := job_args msg;
                        env_topic := TOPIC; env_id := job_id msg |} in
         if Z.of_nat (length pubsubMsg) <? MAX_PUB_SUB_SIZE then
           Log Trace "Publishing to message queue"
             (Await (Publish WORKER_TOPIC pubsubMsg) (AfterSend c))
         else
           Log Trace "Publishing to storage queue"
             (Await (SaveBlob bucketName ("event-" +:+ job_id msg) (base64 pubsubMsg))
                (AfterSend c)))
  end.

(** [processImage] after the send: the timer is armed, or the [catch] block
    logs. *)
Definition afterSend (c : captured) (r : io_result) : prog :=
  match r with
  | Fulfilled _ => SetTimeout c MAX_JOB_TIME Return
  | Rejected _ => Log Error "Error during publish: " Return
  end.

(** The closure given to [setTimeout]. *)
Definition onTimeout (c : captured) : prog :=
  let id := job_id (c_msg c) in
  Log Trace "Checking timeout for"
    (JobsHas id (fun present =>
       if present then
         Log Error "Timing out job for file"
           (JobsDelete id
              (Send (failed id ("File failed to process with timeout " +:+ c_file c))
                 Return))
       else Return)).

(** The callback stored in [jobsInProcess], up to its [await]. *)
Definition callback (c : captured) (result : worker_payload) : prog :=
  Log Trace "Finalizing for"
    (match p_output result with
     | Some outs => Await (WriteOutputs (job_outputDir (c_msg c)) outs) (AfterWrites c outs)
     | None =>
         (* result.output.map throws inside the try block *)
         Log Error "Failed to execute callback" Return
     end).

(** The callback after the writes: report and forget the job, or the
    [catch] block logs. *)
Definition afterWrites (c : captured) (outs : list transform) (r : io_result) : prog :=
  let id := job_id (c_msg c) in
  match r with
  | Fulfilled _ =>
      Send {| msg_type := MESSAGE_TYPES.JOB_COMPLETED;
              msg_payload :=
                ResultPayload id (map (fun t => (t_outputPath t, t_args t)) outs) |}
        (JobsDelete id Return)
  | Rejected _ => Log Error "Failed to execute callback" Return
  end.

Definition resume (k : continuation) (r : io_result) : prog :=
  match k with
  | AfterRead c => afterRead c r
  | AfterSend c => afterSend c r
  | AfterWrites c outs => afterWrites c outs r
  end.

Definition pubsubMessageHandler (pubSubMessage : pubsub_message) : prog :=
  let payload := w_payload pubSubMessage in
  Ack
    (Log Trace "Got worker message"
       (if String.eqb (w_type pubSubMessage) MESSAGE_TYPES.JOB_COMPLETED then
          JobsHas (p_id payload) (fun present =>
            if present then
              JobsGet (p_id payload) (fun found =>
                match found with
                | Some c => callback c payload
                | None => Throw (TypeError "callback is not a function")
                end)
            else Return)
        else if String.eqb (w_type pubSubMessage) MESSAGE_TYPES.JOB_FAILED then
          JobsHas (p_id payload) (fun present =>
            if present then
              JobsDelete (p_id payload)
                (Send {| msg_type := MESSAGE_TYPES.JOB_FAILED;
                         msg_payload := ForwardedPayload payload |} Return)
            else Return)
        else Log Error "Unkown worker message: " Return)).

(** [JOB_TYPES] is an object literal with the one key [IMAGE_PROCESSING];
    any other key is looked up on [Object.prototype].  The inherited
    members are truthy, so the listener calls them with the payload:
    [__proto__] is no function, the two accessor definers refuse an
    [undefined] accessor, and the others return without touching the
    dispatcher. *)
Definition Object_prototype_throwing : list string :=
  ["__proto__"; "__defineGetter__"; "__defineSetter__"].

Definition Object_prototype_quiet : list string :=
  ["constructor"; "hasOwnProperty"; "__lookupGetter__"; "__lookupSetter__";
   "isPrototypeOf"; "propertyIsEnumerable"; "toString"; "valueOf";
   "toLocaleString"].

Definition JOB_TYPES (name : string) : option (job -> prog) :=
  if String.eqb name "IMAGE_PROCESSING" then Some processImage
  else if bool_decide (name ∈ Object_prototype_throwing) then
    Some (fun _ => Throw (TypeError "JOB_TYPES[msg.payload.name] is not a function"))
  else if bool_decide (name ∈ Object_prototype_quiet) then Some (fun _ => Return)
  else None.

(** The listener of [gatsbyProcess.on('message')].  In the [else] branch the
    argument of [send] is evaluated first, and its [type] is the identifier
    [JOB_NOT_WHITELISTED]: no declaration of the file binds it (it is no key
    of [MESSAGE_TYPES] either, and the literal reads it as a variable), so
    the evaluation throws and [send] is not reached. *)
Definition onGatsbyMessage (msg : gatsby_message) : prog :=
  Log Trace "Got gatsby message"
    (if String.eqb (g_type msg) MESSAGE_TYPES.JOB_CREATED then
       match JOB_TYPES (job_name (g_payload msg)) with
       | Some handler => handler (g_payload msg)
       | None => Throw (ReferenceError "JOB_NOT_WHITELISTED")
       end
     else if String.eqb (g_type msg) MESSAGE_TYPES.LOG_ACTION then Return
     else Log Warn "Ignoring message: " Return).

(** ** The event loop *)

Inductive event :=
| FromGatsby (msg : gatsby_message)
| FromWorker (msg : pubsub_message)
| Settle (i : nat) (r : io_result)
    (* the i-th pending operation settles with r *)
| Fire (i : nat)
    (* the i-th pending task, a timer that is due, runs *)
| Elapse (ms : Z).

Definition crashed (st : state) : bool :=
  match uncaught st with Some _ => true | None => false end.

(** One turn of the event loop.  An exception that leaves a listener ends
    the process: no later event is served. *)
Definition step (st : state) (e : event) : state :=
  if crashed st then st
  else
    match e with
    | FromGatsby msg => exec (onGatsbyMessage msg) st
    | FromWorker msg => exec (pubsubMessageHandler msg) st
    | Settle i r =>
        match pending st !! i with
        | Some (PendingIo _ k) => exec (resume k r) (with_pending (delete i) st)
        | _ => st
        end
    | Fire i =>
        match pending st !! i with
        | Some (Timer due c) =>
            if due <=? clock st then exec (onTimeout c) (with_pending (delete i) st)
            else st
        | _ => st
        end
    | Elapse ms => if 0 <=? ms then with_clock (clock st + ms) st else st
    end.

Definition run (st : state) (events : list event) : state :=
  fold_left step events st.


(** ** Jobs, tasks and outcomes *)

Definition continuation_captured (k : continuation) : captured :=
  match k with
  | AfterRead c => c
  | AfterSend c => c
  | AfterWrites c _ => c
  end.

Definition continuation_job (k : continuation) : string :=
  job_id (c_msg (continuation_captured k)).

(** The job a pending task works for. *)
Definition task_job (t : task) : string :=
  match t with
  | PendingIo _ k => continuation_job k
  | Timer _ c => job_id (c_msg c)
  end.

Definition tasks_of (id : string) (ts : list task) : list task :=
  filter (fun t => task_job t = id) ts.

(** What the producer has been told about job [id], oldest first. *)
Definition outcomes (id : string) (st : state) : list ipc_message :=
  filter (fun m => payload_id (msg_payload m) = id) (sent st).

(** Every callback is stored under the id of the job it captured. *)
Definition consistent (st : state) : Prop :=
  map_Forall (fun id c => job_id (c_msg c) = id) (jobsInProcess st).

(** The job an event is about, in the state in which it arrives. *)
Definition event_job (st : state) (e : event) : option string :=
  match e with
  | FromGatsby msg => Some (job_id (g_payload msg))
  | FromWorker msg => Some (p_id (w_payload msg))
  | Settle i _ =>
      match pending st !! i with
      | Some (PendingIo _ k) => Some (continuation_job k)
      | _ => None
      end
  | Fire i =>
      match pending st !! i with
      | Some (Timer _ c) => Some (job_id (c_msg c))
      | _ => None
      end
  | Elapse _ => None
  end.

Definition concerns (id : string) (st : state) (e : event) : bool :=
  bool_decide (event_job st e = Some id).

(** No event of the sequence is about job [id]. *)
Fixpoint quiet (id : string) (st : state) (events : list event) : bool :=
  match events with
  | [] => true
  | e :: rest => negb (concerns id st e) && quiet id (step st e) rest
  end.

(** The producer submits no job under the id [id]. *)
Definition resubmits (id : string) (e : event) : bool :=
  match e with
  | FromGatsby msg => bool_decide (job_id (g_payload msg) = id)
  | _ => false
  end.

(** A task that can no longer report anything once the entry of its job is
    gone: a send in flight (it will arm the timer) or an armed timer. *)
Definition harmless (t : task) : bool :=
  match t with
  | PendingIo _ (AfterSend _) => true
  | Timer _ _ => true
  | _ => false
  end.

(** Job [id] is resolved: no entry, and nothing pending that could report. *)
Definition resolved (id : string) (st : state) : Prop :=
  jobsInProcess st !! id = None /\ Forall (fun t => harmless t = true) (tasks_of id (pending st)).

(** [p] only touches the entry, the tasks and the outcomes of job [j]. *)
Fixpoint belongs (j : string) (p : prog) : Prop :=
  match p with
  | Return | Throw _ | Reject _ => True
  | Ack k | Log _ _ k => belongs j k
  | Send m k => payload_id (msg_payload m) = j /\ belongs j k
  | JobsHas id k => forall b, belongs j (k b)
  | JobsGet id k =>
      id = j /\ belongs j (k None) /\
      forall c, job_id (c_msg c) = id -> belongs j (k (Some c))
  | JobsSet id c k => id = j /\ job_id (c_msg c) = j /\ belongs j k
  | JobsDelete id k => id = j /\ belongs j k
  | SetTimeout c _ k => job_id (c_msg c) = j /\ belongs j k
  | Await _ k => continuation_job k = j
  end.

(** Every failure is sent for an id that is not, at that moment, in
    [jobsInProcess]. *)
Fixpoint failures_after_removal (p : prog) (st : state) : Prop :=
  match p with
  | Return | Throw _ | Reject _ | Await _ _ => True
  | Ack k => failures_after_removal k (ack st)
  | Log lvl text k => failures_after_removal k (log lvl text st)
  | Send m k =>
      (msg_type m = MESSAGE_TYPES.JOB_FAILED ->
       jobsInProcess st !! payload_id (msg_payload m) = None) /\
      failures_after_removal k (emit m st)
  | JobsHas id k =>
      failures_after_removal (k (bool_decide (is_Some (jobsInProcess st !! id)))) st
  | JobsGet id k => failures_after_removal (k (jobsInProcess st !! id)) st
  | JobsSet id c k => failures_after_removal k (with_jobs (insert id c) st)
  | JobsDelete id k => failures_after_removal k (with_jobs (delete id) st)
  | SetTimeout c ms k =>
      failures_after_removal k
        (with_pending (fun ts => ts ++ [Timer (clock st + ms) c]) st)
  end.

(** The listener body that an event runs, if any. *)
Definition handler (st : state) (e : event) : option (prog * state) :=
  if crashed st then None
  else
    match e with
    | FromGatsby msg => Some (onGatsbyMessage msg, st)
    | FromWorker msg => Some (pubsubMessageHandler msg, st)
    | Settle i r =>
        match pending st !! i with
        | Some (PendingIo _ k) => Some (resume k r, with_pending (delete i) st)
        | _ => None
        end
    | Fire i =>
        match pending st !! i with
        | Some (Timer due c) =>
            if due <=? clock st then Some (onTimeout c, with_pending (delete i) st)
            else None
        | _ => None
        end
    | Elapse _ => None
    end.

(** Along a run, every failure is sent after the removal of its entry. *)
Fixpoint run_failures_after_removal (st : state) (events : list event) : Prop :=
  match events with
  | [] => True
  | e :: rest =>
      match handler st e with
      | Some (p, st') => failures_after_removal p st'
      | None => True
      end /\ run_failures_after_removal (step st e) rest
  end.

(** Every job arrives under an id that is not in [jobsInProcess]. *)
Fixpoint fresh_ids (st : state) (events : list event) : bool :=
  match events with
  | [] => true
  | e :: rest =>
      match e with
      | FromGatsby msg =>
          bool_decide (jobsInProcess st !! job_id (g_payload msg) = None)
      | _ => true
      end && fresh_ids (step st e) rest
  end.

(** [st'] is [st] but for what belongs to job [j]: its entry, new tasks and
    new messages of [j]. *)
Definition framed (j : string) (st st' : state) : Prop :=
  consistent st' /\
  (forall i, i <> j -> jobsInProcess st' !! i = jobsInProcess st !! i) /\
  (exists new, pending st' = pending st ++ new /\
               Forall (fun t => task_job t = j) new) /\
  (exists out, sent st' = sent st ++ out /\
               Forall (fun m => payload_id (msg_payload m) = j) out) /\
  clock st' = clock st.

(** The message the callback sends once the outputs are written. *)
Definition completed_message (id : string) (outs : list transform) : ipc_message :=
  {| msg_type := MESSAGE_TYPES.JOB_COMPLETED;
     msg_payload := ResultPayload id (map (fun t => (t_outputPath t, t_args t)) outs) |}.

(** The ids under which gatsby has submitted jobs of type
    [IMAGE_PROCESSING]. *)
Fixpoint submitted (events : list event) : list string :=
  match events with
  | [] => []
  | FromGatsby msg :: rest =>
      if String.eqb (g_type msg) MESSAGE_TYPES.JOB_CREATED
         && String.eqb (job_name (g_payload msg)) "IMAGE_PROCESSING"
      then job_id (g_payload msg) :: submitted rest
      else submitted rest
  | _ :: rest => submitted rest
  end.

(** Every entry, every pending task and every message sent is about one of
    the ids in [ids]. *)
Definition known (ids : list string) (st : state) : Prop :=
  (forall id c, jobsInProcess st !! id = Some c -> id ∈ ids) /\
  Forall (fun t => task_job t ∈ ids) (pending st) /\
  Forall (fun m => payload_id (msg_payload m) ∈ ids) (sent st).

End Dispatcher.

(** ** Start-up: [createSubscription] and the exit of gatsby *)

Section Startup.

Context {rt : Runtime}.

(** [nf-sub-${new Date().getTime()}], from the time at which the runner
    starts, in milliseconds. *)
Definition subName (now : Z) : string := "nf-sub-" +:+ pretty now.

Inductive startup_request :=
| CreateTopic (name : option string)
    (* pubSubClient.createTopic(process.env.TOPIC) *)
| CreateSubscription (topic : option string) (name : string).
    (* pubSubClient.topic(process.env.TOPIC).createSubscription(subName) *)

Inductive startup_phase :=
| CreatingTopic
    (* createSubscription awaits createTopic *)
| CreatingSubscription
    (* createSubscription awaits the subscription *)
| Listening
    (* pubsubMessageHandler listens, and the 'exit' listener is on gatsby *)
| NotListening.
    (* the subscription was refused: createSubscription() rejected *)

(** The runner: the start-up beside the dispatcher it feeds. *)
Record runner := {
  phase : startup_phase;
  subscription : string;
  requested : list startup_request;
  startup_logged : list (log_level * string);
  exited : option Z;
  dispatcher : state
}.

(** [build()] up to the first [await] of [createSubscription]. *)
Definition boot (now : Z) : runner :=
  {| phase := CreatingTopic; subscription := subName now;
     requested := [CreateTopic TOPIC]; startup_logged := [];
     exited := None; dispatcher := init |}.

Inductive runner_event :=
| TopicSettled (r : io_result)
| SubscriptionSettled (r : io_result)
| GatsbyExit (code : option Z)
    (* gatsby's 'exit'; the code is null when a signal ended it *)
| Turn (e : event).

(** The process is over: it called [process.exit], or an exception left a
    listener. *)
Definition stopped (r : runner) : bool :=
  match exited r with Some _ => true | None => crashed (dispatcher r) end.

Definition runner_step (r : runner) (e : runner_event) : runner :=
  if stopped r then r
  else
    match e, phase r with
    | TopicSettled res, CreatingTopic =>
        (* a rejection is caught and logged; the subscription is created
           either way *)
        {| phase := CreatingSubscription; subscription := subscription r;
           requested := requested r ++ [CreateSubscription TOPIC (subscription r)];
           startup_logged :=
             startup_logged r ++
               match res with
               | Fulfilled _ => []
               | Rejected _ => [(Debug, "Create topic failed")]
               end;
           exited := exited r; dispatcher := dispatcher r |}
    | SubscriptionSettled (Fulfilled _), CreatingSubscription =>
        {| phase := Listening; subscription := subscription r;
           requested := requested r; startup_logged := startup_logged r;
           exited := exited r; dispatcher := dispatcher r |}
    | SubscriptionSettled (Rejected reason), CreatingSubscription =>
        (* createSubscription().catch(log.error) *)
        {| phase := NotListening; subscription := subscription r;
           requested := requested r;
           startup_logged := startup_logged r ++ [(Error, reason)];
           exited := exited r; dispatcher := dispatcher r |}
    | GatsbyExit code, Listening =>
        (* process.exit(code): a null code leaves the exit code at 0 *)
        {| phase := phase r; subscription := subscription r;
           requested := requested r; startup_logged := startup_logged r;
           exited := Some (default 0 code); dispatcher := dispatcher r |}
    | Turn (FromWorker msg), Listening =>
        {| phase := phase r; subscription := subscription r;
           requested := requested r; startup_logged := startup_logged r;
           exited := exited r; dispatcher := step (dispatcher r) (FromWorker msg) |}
    | Turn (FromWorker _), _ =>
        (* no subscription delivers to this process *)
        r
    | Turn e, _ =>
        {| phase := phase r; subscription := subscription r;
           requested := requested r; startup_logged := startup_logged r;
           exited := exited r; dispatcher := step (dispatcher r) e |}
    | _, _ => r
    end.

Definition runner_run (r : runner) (events : list runner_event) : runner :=
  fold_left runner_step events r.

(** A task of the finalisation callback. *)
Definition finalizing (t : task) : bool :=
  match t with
  | PendingIo _ (AfterWrites _ _) => true
  | _ => false
  end.

End Startup.

(** ** Concrete runs *)

(** A stand-in for Node's serialisation in the runs below: the fields of the
    envelope one after the other. *)
Definition plain_serialize (e : envelope) : list Byte.byte :=
  env_file e
    ++ String.list_byte_of_string (env_action e +:+ template (env_topic e) +:+ env_id e).

(** The environment of the runs below. *)
Definition sample_runtime : Runtime :=
  {| TOPIC := Some "gatsby-results"; WORKER_TOPIC := Some "gatsby-workers";
     serialize := plain_serialize |}.

Definition sample_step : state -> event -> state :=
  step (rt:=sample_runtime).

Definition sample_run : state -> list event -> state :=
  run (rt:=sample_runtime).

Definition created (j : job) : event :=
  FromGatsby {| g_type := MESSAGE_TYPES.JOB_CREATED; g_payload := j |}.

Definition image_job (id file : string) : job :=
  {| job_id := id; job_name := "IMAGE_PROCESSING";
     job_inputPaths := Some [ {| ip_path := file |} ];
     job_outputDir := "public/static"; job_args := "{width:200}" |}.

Definition job_a1 : job := image_job "a1" "src/cat.png".
Definition job_b2 : job := image_job "b2" "src/dog.png".

Definition cat_png : list Byte.byte := [Byte.x89; Byte.x50; Byte.x4e; Byte.x47].

Definition thumbnails : list transform :=
  [ {| t_outputPath := "cat-200.png"; t_data := "iVBORw0KGgo="; t_args := "{width:200}" |} ].

Definition completed_answer (id : string) : pubsub_message :=
  {| w_type := MESSAGE_TYPES.JOB_COMPLETED;
     w_payload := {| p_id := id; p_output := Some thumbnails; p_error := None |} |}.

Definition failed_answer (id : string) : pubsub_message :=
  {| w_type := MESSAGE_TYPES.JOB_FAILED;
     w_payload := {| p_id := id; p_output := None;
                     p_error := Some "sharp: unsupported image format" |} |}.

Definition completed (id : string) : event := FromWorker (completed_answer id).
Definition worker_failed (id : string) : event := FromWorker (failed_answer id).

(** [a1] is submitted and read, its callback registered, its publish awaited. *)
Definition a1_sending : state :=
  sample_run init [created job_a1; Settle 0 (Fulfilled cat_png)].

(** [a1] is dispatched: the publish was acknowledged and the timer is armed. *)
Definition a1_dispatched : state := sample_step a1_sending (Settle 0 (Fulfilled [])).

(** [b2] is dispatched, the worker has answered, the writes are under way. *)
Definition b2_finalizing : state :=
  sample_run init
    [created job_b2; Settle 0 (Fulfilled cat_png); Settle 0 (Fulfilled []);
     Elapse 1500; completed "b2"].

(** Three jobs, a worker failure, a rejected job, a completion and a timeout,
    every job under an id of its own. *)
Definition busy_day : list event :=
  [created job_a1; Settle 0 (Fulfilled cat_png); Settle 0 (Fulfilled []);
   created job_b2; Settle 1 (Fulfilled cat_png); Settle 1 (Fulfilled []);
   created {| job_id := "c3"; job_name := "IMAGE_PROCESSING"; job_inputPaths := None;
              job_outputDir := "public/static"; job_args := "{}" |};
   worker_failed "a1"; completed "b2"; Settle 2 (Fulfilled []);
   created (image_job "d4" "src/owl.png"); Settle 2 (Fulfilled cat_png);
   Settle 2 (Fulfilled []); Elapse 60000; Fire 0; Fire 0; Fire 0; worker_failed "d4"].

(** While [a1] waits for its answer, [b2] is submitted and dispatched; a
    minute after the dispatch of [a1] nothing has arrived for it. *)
Definition a_minute_of_b2 : list event :=
  [created job_b2; Elapse 30000; Settle 1 (Fulfilled cat_png);
   Settle 1 (Fulfilled []); Elapse 30000].

(** A late answer, a late failure and a duplicate, all for [a1]. *)
Definition late_answers : list event :=
  [completed "a1"; worker_failed "a1"; Fire 0; completed "a1"; Elapse 100000; Fire 0].

(** While the thumbnails of [a1] are written, [b2] is submitted and read. *)
Definition b2_arrives : list event :=
  [created job_b2; Settle 2 (Fulfilled cat_png); Elapse 500].

Definition submit (j : job) : gatsby_message :=
  {| g_type := MESSAGE_TYPES.JOB_CREATED; g_payload := j |}.

(** The start-up of a runner whose subscription is refused, and a job it
    takes on all the same. *)
Definition refused_subscription : list runner_event :=
  [TopicSettled (Fulfilled []); SubscriptionSettled (Rejected "PERMISSION_DENIED");
   Turn (created job_a1); Turn (Settle 0 (Fulfilled cat_png)); Turn (Settle 0 (Fulfilled []));
   Turn (completed "a1"); Turn (Elapse 60000); Turn (Fire 0); GatsbyExit (Some 0)].

(** The topic exists already, the subscription is created, gatsby fails. *)
Definition failing_build : list runner_event :=
  [TopicSettled (Rejected "ALREADY_EXISTS"); SubscriptionSettled (Fulfilled []);
   Turn (created job_a1); GatsbyExit (Some 1); Turn (created job_b2)].

(** A serialisation that is exactly as long as the threshold. *)
Definition threshold_payload (_ : envelope) : list Byte.byte :=
  repeat Byte.x00 (N.to_nat 5242880).

Definition threshold_runtime : Runtime :=
  {| TOPIC := Some "gatsby-results"; WORKER_TOPIC := Some "gatsby-workers";
     serialize := threshold_payload |}.

(** * Properties *)

(** ** The base64 text *)

Lemma land_63_lt m : (N.land m 63 < 64)%N.
Proof.
  change 63%N with (N.ones 6). rewrite N.land_ones. apply N.mod_lt. discriminate.
Qed.


Lemma base64_value_small k :
  (k < 64)%N ->
  base64_value
    match String.get (N.to_nat k) base64_alphabet with
    | Some c => c
    | None => "="%char
    end = Some k.
Proof.
  intros Hk. destruct k as [|p]; [ reflexivity | ].
  do 6 (try destruct p as [p|p|]); try lia; reflexivity.
Qed.

Lemma base64_value_digit m : base64_value (base64_digit m) = Some (N.land m 63).
Proof. apply base64_value_small, land_63_lt. Qed.

Lemma base64_digit_inj m m' :
  base64_digit m = base64_digit m' -> N.land m 63 = N.land m' 63.
Proof.
  intros H. apply (f_equal base64_value) in H.
  rewrite !base64_value_digit in H. congruence.
Qed.

Lemma base64_digit_not_pad m : base64_digit m <> "="%char.
Proof.
  intros H. apply (f_equal base64_value) in H.
  rewrite base64_value_digit in H. discriminate.
Qed.

Section Base64Facts.
Local Open Scope N_scope.

Lemma small_testbit x k i : (x < 2 ^ k)%N -> (k <= i)%N -> N.testbit x i = false.
Proof.
  intros Hx Hi. destruct (N.eq_dec x 0%N) as [->|Hne]; [ apply N.bits_0 | ].
  apply N.bits_above_log2. apply N.log2_lt_pow2; [ lia | ].
  eapply N.lt_le_trans; [ exact Hx | ]. apply N.pow_le_mono_r; lia.
Qed.

Lemma lor_shiftl_add x y k : (y < 2 ^ k)%N -> N.lor (N.shiftl x k) y = (x * 2 ^ k + y)%N.
Proof.
  intros Hy. rewrite <- N.shiftl_mul_pow2.
  rewrite <- N.lxor_lor, <- N.add_nocarry_lxor; auto;
    apply N.bits_inj; intros i; rewrite N.land_spec, N.bits_0;
    destruct (N.lt_ge_cases i k) as [Hlt|Hge];
    [ rewrite N.shiftl_spec_low by exact Hlt; reflexivity
    | rewrite (small_testbit y k i Hy Hge); apply andb_false_r
    | rewrite N.shiftl_spec_low by exact Hlt; reflexivity
    | rewrite (small_testbit y k i Hy Hge); apply andb_false_r ].
Qed.

Lemma byte_bound (a : Byte.byte) : (Byte.to_N a < 256)%N.
Proof. pose proof (Byte.to_N_bounded a). lia. Qed.

Lemma three_bytes a b c :
  N.lor (N.lor (N.shiftl (Byte.to_N a) 16) (N.shiftl (Byte.to_N b) 8)) (Byte.to_N c)
  = (Byte.to_N a * 65536 + Byte.to_N b * 256 + Byte.to_N c)%N.
Proof.
  pose proof (byte_bound a). pose proof (byte_bound b). pose proof (byte_bound c).
  rewrite (N.shiftl_mul_pow2 (Byte.to_N b)).
  rewrite (lor_shiftl_add (Byte.to_N a) (Byte.to_N b * 2 ^ 8) 16)
    by (change (2 ^ 8)%N with 256%N; change (2 ^ 16)%N with 65536%N; lia).
  replace (Byte.to_N a * 2 ^ 16 + Byte.to_N b * 2 ^ 8)%N
    with ((Byte.to_N a * 256 + Byte.to_N b) * 2 ^ 8)%N
    by (change (2 ^ 8)%N with 256%N; change (2 ^ 16)%N with 65536%N; lia).
  rewrite <- N.shiftl_mul_pow2.
  rewrite lor_shiftl_add by (change (2 ^ 8)%N with 256%N; lia).
  change (2 ^ 8)%N with 256%N. lia.
Qed.

Lemma digit_of n s : N.land (N.shiftr n s) 63 = ((n / 2 ^ s) mod 64)%N.
Proof.
  rewrite N.shiftr_div_pow2. change 63%N with (N.ones 6). apply N.land_ones.
Qed.

Lemma four_digits m :
  m < 16777216 ->
  m = ((((m / 262144) mod 64 * 64 + (m / 4096) mod 64) * 64 + (m / 64) mod 64) * 64
       + m mod 64).
Proof.
  intros Hm.
  pose proof (N.div_mod m 64 ltac:(discriminate)) as H0.
  pose proof (N.div_mod (m / 64) 64 ltac:(discriminate)) as H1.
  pose proof (N.div_mod (m / 64 / 64) 64 ltac:(discriminate)) as H2.
  rewrite !N.Div0.div_div in H1, H2.
  change (64 * 64) with 4096 in *.
  rewrite N.Div0.div_div in H2. change (4096 * 64) with 262144 in *.
  assert (H3 : m / 262144 < 64) by (apply N.Div0.div_lt_upper_bound; lia).
  rewrite (N.mod_small (m / 262144)) by exact H3.
  lia.
Qed.

Lemma six_bits_inj n n' :
  n < 16777216 -> n' < 16777216 ->
  (n / 2 ^ 18) mod 64 = (n' / 2 ^ 18) mod 64 ->
  (n / 2 ^ 12) mod 64 = (n' / 2 ^ 12) mod 64 ->
  (n / 2 ^ 6) mod 64 = (n' / 2 ^ 6) mod 64 ->
  n mod 64 = n' mod 64 ->
  n = n'.
Proof.
  change (2 ^ 18) with 262144. change (2 ^ 12) with 4096. change (2 ^ 6) with 64.
  intros Hn Hn' H1 H2 H3 H4.
  rewrite (four_digits n Hn), (four_digits n' Hn'). congruence.
Qed.

Lemma to_N_inj a b : Byte.to_N a = Byte.to_N b -> a = b.
Proof.
  intros H. pose proof (Byte.of_to_N a) as Ha. rewrite H, Byte.of_to_N in Ha.
  congruence.
Qed.

Lemma char_digit n n' s :
  base64_digit (N.shiftr n s) = base64_digit (N.shiftr n' s) ->
  (n / 2 ^ s) mod 64 = (n' / 2 ^ s) mod 64.
Proof. intros H. apply base64_digit_inj in H. rewrite !digit_of in H. exact H. Qed.

Lemma char_digit_0 n n' :
  base64_digit n = base64_digit n' -> n mod 64 = n' mod 64.
Proof.
  intros H. apply base64_digit_inj in H.
  change 63 with (N.ones 6) in H. rewrite !N.land_ones in H. exact H.
Qed.

Lemma group_inj a b c a' b' c' :
  Byte.to_N a * 65536 + Byte.to_N b * 256 + Byte.to_N c
  = Byte.to_N a' * 65536 + Byte.to_N b' * 256 + Byte.to_N c' ->
  a = a' /\ b = b' /\ c = c'.
Proof.
  pose proof (byte_bound a). pose proof (byte_bound b). pose proof (byte_bound c).
  pose proof (byte_bound a'). pose proof (byte_bound b'). pose proof (byte_bound c').
  intros E. split_and!; apply to_N_inj; lia.
Qed.

Lemma group_bound a b c :
  Byte.to_N a * 65536 + Byte.to_N b * 256 + Byte.to_N c < 16777216.
Proof.
  pose proof (byte_bound a). pose proof (byte_bound b). pose proof (byte_bound c). lia.
Qed.

Lemma triple_ind {A} (P : list A -> Prop) :
  P [] -> (forall a, P [a]) -> (forall a b, P [a; b]) ->
  (forall a b c l, P l -> P (a :: b :: c :: l)) ->
  forall l, P l.
Proof.
  intros H0 H1 H2 H3 l.
  assert (H : P l /\ (forall a, P (a :: l)) /\ (forall a b, P (a :: b :: l))).
  { induction l as [|x l (IH0 & IH1 & IH2)]; auto. }
  apply H.
Qed.

Lemma base64_inj bs : forall bs', base64 bs = base64 bs' -> bs = bs'.
Proof.
  induction bs as [|a|a b|a b c rest IH] using triple_ind;
    intros [|a' [|b' [|c' rest']]]; cbn [base64]; cbv zeta; intros E;
    try discriminate; try reflexivity; injection E; clear E.
  all: try (intros; exfalso; eapply base64_digit_not_pad; eauto; fail).
  all: try (intros; exfalso; eapply base64_digit_not_pad; symmetry; eauto; fail).
  - (* one byte each *)
    intros E2 E1.
    apply char_digit in E1, E2.
    rewrite !N.shiftl_mul_pow2 in E1, E2. change (2 ^ 16) with 65536 in *.
    destruct (group_inj a Byte.x00 Byte.x00 a' Byte.x00 Byte.x00) as (-> & _); auto.
    change (Byte.to_N Byte.x00) with 0. rewrite !N.mul_0_l, !N.add_0_r.
    pose proof (byte_bound a). pose proof (byte_bound a').
    apply six_bits_inj; try lia; auto.
    + replace (Byte.to_N a * 65536) with (Byte.to_N a * 1024 * 2 ^ 6)
        by (change (2 ^ 6) with 64; lia).
      replace (Byte.to_N a' * 65536) with (Byte.to_N a' * 1024 * 2 ^ 6)
        by (change (2 ^ 6) with 64; lia).
      rewrite !N.div_mul by discriminate.
      replace (Byte.to_N a * 1024) with (Byte.to_N a * 16 * 64) by lia.
      replace (Byte.to_N a' * 1024) with (Byte.to_N a' * 16 * 64) by lia.
      rewrite !N.Div0.mod_mul. reflexivity.
    + replace (Byte.to_N a * 65536) with (Byte.to_N a * 1024 * 64) by lia.
      replace (Byte.to_N a' * 65536) with (Byte.to_N a' * 1024 * 64) by lia.
      rewrite !N.Div0.mod_mul. reflexivity.
  - (* two bytes each *)
    intros E3 E2 E1.
    apply char_digit in E1, E2, E3.
    pose proof (three_bytes a b Byte.x00) as Ea.
    pose proof (three_bytes a' b' Byte.x00) as Ea'.
    change (Byte.to_N Byte.x00) with 0 in Ea, Ea'. rewrite N.lor_0_r, N.add_0_r in Ea, Ea'.
    rewrite Ea, Ea' in E1, E2, E3.
    destruct (group_inj a b Byte.x00 a' b' Byte.x00) as (-> & -> & _); auto.
    change (Byte.to_N Byte.x00) with 0. rewrite !N.add_0_r.
    pose proof (group_bound a b Byte.x00) as Hb.
    pose proof (group_bound a' b' Byte.x00) as Hb'.
    change (Byte.to_N Byte.x00) with 0 in Hb, Hb'. rewrite N.add_0_r in Hb, Hb'.
    apply six_bits_inj; auto.
    replace (Byte.to_N a * 65536 + Byte.to_N b * 256)
      with ((Byte.to_N a * 1024 + Byte.to_N b * 4) * 64) by lia.
    replace (Byte.to_N a' * 65536 + Byte.to_N b' * 256)
      with ((Byte.to_N a' * 1024 + Byte.to_N b' * 4) * 64) by lia.
    rewrite !N.Div0.mod_mul. reflexivity.
  - (* a full group, then the rest *)
    intros Erest E4 E3 E2 E1.
    apply char_digit in E1, E2, E3. apply char_digit_0 in E4.
    rewrite !three_bytes in E1, E2, E3, E4.
    destruct (group_inj a b c a' b' c') as (-> & -> & ->).
    + apply six_bits_inj; auto using group_bound.
    + f_equal. f_equal. f_equal. apply IH. exact Erest.
Qed.

Lemma base64_length bs :
  String.length (base64 bs) = (4 * ((length bs + 2) / 3))%nat.
Proof.
  induction bs as [|a|a b|a b c rest IH] using triple_ind; try reflexivity.
  cbn [base64]. cbv zeta. cbn [String.length length]. rewrite IH.
  replace (S (S (S (length rest))) + 2)%nat with (1 * 3 + (length rest + 2))%nat by lia.
  rewrite Nat.div_add_l by discriminate. lia.
Qed.

Lemma get_In s : forall n c, String.get n s = Some c -> In c (String.list_ascii_of_string s).
Proof.
  induction s as [|c' s IH]; intros [|n] c; simpl; try discriminate.
  - intros [= ->]. auto.
  - intros H. right. eapply IH, H.
Qed.

Lemma base64_digit_in m : In (base64_digit m) (String.list_ascii_of_string base64_alphabet).
Proof.
  pose proof (base64_value_small (N.land m 63) (land_63_lt m)) as Hv.
  unfold base64_digit.
  destruct (String.get (N.to_nat (N.land m 63)) base64_alphabet) as [c|] eqn:E.
  - eapply get_In, E.
  - discriminate Hv.
Qed.

(** X12.  The base64 text of [n] bytes is [4 * ceil (n / 3)] characters
    long, each of them a character of the base64 alphabet or the padding
    sign. *)
Theorem base64_text_shape bs :
  String.length (base64 bs) = (4 * ((length bs + 2) / 3))%nat /\
  Forall (fun c => c = "="%char \/ In c (String.list_ascii_of_string base64_alphabet))
    (String.list_ascii_of_string (base64 bs)).
Proof.
  split; [ apply base64_length | ].
  induction bs as [|a|a b|a b c rest IH] using triple_ind; cbn [base64]; cbv zeta;
    cbn [String.list_ascii_of_string];
    repeat (constructor; [ first [ left; reflexivity | right; apply base64_digit_in ] | ]);
    auto.
Qed.

(** X13.  Different byte sequences have different base64 texts: what is
    saved in the bucket determines the envelope. *)
Theorem base64_distinct bs bs' : bs <> bs' -> base64 bs <> base64 bs'.
Proof. intros Hne E. apply Hne, base64_inj, E. Qed.

End Base64Facts.

Section Properties.

Context {rt : Runtime}.

(** ** Framing: a listener body of job [j] leaves the other jobs alone *)

Lemma framed_refl j st : consistent st -> framed j st st.
Proof.
  intros Hc. repeat split; auto.
  - exists []. rewrite app_nil_r. auto.
  - exists []. rewrite app_nil_r. auto.
Qed.

Lemma framed_trans j a b c : framed j a b -> framed j b c -> framed j a c.
Proof.
  intros (_ & Hj1 & (n1 & Hp1 & Hn1) & (o1 & Hs1 & Ho1) & Hk1)
         (Hc & Hj2 & (n2 & Hp2 & Hn2) & (o2 & Hs2 & Ho2) & Hk2).
  repeat split; auto.
  - intros i Hi. rewrite Hj2, Hj1; auto.
  - exists (n1 ++ n2). rewrite Hp2, Hp1, <- app_assoc. split; auto.
    apply Forall_app; auto.
  - exists (o1 ++ o2). rewrite Hs2, Hs1, <- app_assoc. split; auto.
    apply Forall_app; auto.
  - congruence.
Qed.

Ltac frame_nil := exists []; rewrite app_nil_r; split; [reflexivity | constructor].

Ltac frame_step :=
  unfold framed; split_and!; simpl; auto; try frame_nil.

Lemma exec_belongs j p :
  belongs j p -> forall st, consistent st -> framed j st (exec p st).
Proof.
  induction p as [ | e | e | k IH | lvl text k IH | m k IH | id k IH | id k IH
                 | id c k IH | id k IH | c ms k IH | r k ]; simpl; intros Hb st Hc.
  - apply framed_refl; auto.
  - frame_step.
  - frame_step.
  - eapply framed_trans; [ | apply IH; auto ]. frame_step.
  - eapply framed_trans; [ | apply IH; auto ]. frame_step.
  - destruct Hb as [Hm Hb].
    eapply framed_trans; [ | apply IH; auto ].
    frame_step. exists [m]. auto.
  - apply IH; auto.
  - destruct Hb as (-> & Hnone & Hsome).
    destruct (jobsInProcess st !! j) as [c|] eqn:E; apply IH; eauto.
  - destruct Hb as (-> & Hid & Hb).
    assert (Hc' : consistent (with_jobs (insert j c) st)).
    { unfold consistent; simpl. apply map_Forall_insert_2; auto. }
    eapply framed_trans; [ | apply IH; auto ].
    frame_step. intros i Hi. apply lookup_insert_ne; auto.
  - destruct Hb as (-> & Hb).
    assert (Hc' : consistent (with_jobs (delete j) st)).
    { unfold consistent; simpl. apply map_Forall_delete; auto. }
    eapply framed_trans; [ | apply IH; auto ].
    frame_step. intros i Hi. apply lookup_delete_ne; auto.
  - destruct Hb as (Hid & Hb).
    eapply framed_trans; [ | apply IH; auto ].
    frame_step. eexists. split; [reflexivity | auto].
  - frame_step. eexists. split; [reflexivity | auto].
Qed.

Lemma processImage_belongs msg : belongs (job_id msg) (processImage msg).
Proof.
  unfold processImage. destruct (wrong_input_paths msg); simpl; auto.
  destruct (job_inputPaths msg) as [[|first rest]|]; simpl; auto.
Qed.

Lemma resume_belongs k r : belongs (continuation_job k) (resume k r).
Proof.
  destruct k as [c|c|c outs], r as [data|reason]; simpl; auto.
  split_and!; auto.
  destruct (_ <? _); simpl; auto.
Qed.

Lemma onTimeout_belongs c : belongs (job_id (c_msg c)) (onTimeout c).
Proof. simpl. intros [|]; simpl; auto. Qed.

Lemma callback_belongs c result : belongs (job_id (c_msg c)) (callback c result).
Proof. unfold callback; simpl. destruct (p_output result); simpl; auto. Qed.

Lemma pubsubMessageHandler_belongs msg :
  belongs (p_id (w_payload msg)) (pubsubMessageHandler msg).
Proof.
  unfold pubsubMessageHandler; simpl.
  destruct (String.eqb _ _); [ | destruct (String.eqb _ _) ]; simpl; auto.
  - intros [|]; simpl; auto. split_and!; auto.
    intros c <-. apply callback_belongs.
  - intros [|]; simpl; auto.
Qed.

Lemma onGatsbyMessage_belongs msg :
  belongs (job_id (g_payload msg)) (onGatsbyMessage msg).
Proof.
  unfold onGatsbyMessage; simpl.
  destruct (String.eqb _ _); [ | destruct (String.eqb _ _); simpl; auto ].
  unfold JOB_TYPES.
  destruct (String.eqb _ _); [ apply processImage_belongs | ].
  repeat (case_bool_decide; simpl; auto).
Qed.

Lemma tasks_of_delete_other id ts i t :
  ts !! i = Some t -> task_job t <> id ->
  tasks_of id (delete i ts) = tasks_of id ts.
Proof.
  intros Hi Hne. unfold tasks_of.
  rewrite <- (take_drop_middle ts i t Hi) at 2.
  rewrite delete_take_drop, !filter_app, filter_cons_False; auto.
Qed.

(** Deleting the one task of [id] that is not in [hs]. *)
Lemma tasks_of_delete_last id ts i t hs :
  ts !! i = Some t -> tasks_of id ts = hs ++ [t] -> t ∉ hs ->
  tasks_of id (delete i ts) = hs.
Proof.
  intros Hi Hts Hnot. unfold tasks_of in *.
  assert (Ht : task_job t = id).
  { assert (t ∈ filter (fun t => task_job t = id) ts) as Hin
      by (rewrite Hts; set_solver).
    apply list_elem_of_filter in Hin. tauto. }
  rewrite <- (take_drop_middle ts i t Hi) in Hts.
  rewrite filter_app, filter_cons_True in Hts by auto.
  rewrite delete_take_drop, filter_app.
  destruct (filter (fun t => task_job t = id) (drop (S i) ts)) as [|x xs _] eqn:E
    using rev_ind.
  - rewrite app_nil_r. apply app_inj_tail in Hts. tauto.
  - exfalso. apply Hnot.
    rewrite app_comm_cons, app_assoc in Hts.
    apply app_inj_tail in Hts as [<- _]. set_solver.
Qed.

(** What one turn of the event loop can be: nothing, the clock moving, or a
    listener body of the job the event is about, run on the state in which
    the task it resumes (if any) has been taken off. *)
Lemma step_cases st e :
  consistent st ->
  step st e = st \/
  (exists t, step st e = with_clock t st) \/
  (exists j st0, event_job st e = Some j /\ framed j st0 (step st e) /\
     (st0 = st \/
      exists i t, pending st !! i = Some t /\ task_job t = j /\
                  st0 = with_pending (delete i) st)).
Proof.
  intros Hc. unfold step. destruct (crashed st); auto.
  destruct e as [msg|msg|i r|i|ms]; cbn [event_job].
  - right; right. eexists _, st. split_and!; eauto.
    apply exec_belongs; auto. apply onGatsbyMessage_belongs.
  - right; right. eexists _, st. split_and!; eauto.
    apply exec_belongs; auto. apply pubsubMessageHandler_belongs.
  - destruct (pending st !! i) as [[req k|due c]|] eqn:E; auto.
    right; right. exists (continuation_job k), (with_pending (delete i) st).
    split_and!; auto.
    + apply exec_belongs; auto. apply resume_belongs.
    + right. exists i, (PendingIo req k). auto.
  - destruct (pending st !! i) as [[req k|due c]|] eqn:E; auto.
    destruct (due <=? clock st); auto.
    right; right. exists (job_id (c_msg c)), (with_pending (delete i) st).
    split_and!; auto.
    + apply exec_belongs; auto. apply onTimeout_belongs.
    + right. exists i, (Timer due c). auto.
  - destruct (0 <=? ms); eauto.
Qed.

Lemma step_consistent st e : consistent st -> consistent (step st e).
Proof.
  intros Hc.
  destruct (step_cases st e Hc) as [-> | [[t ->] | (j & st0 & _ & Hf & _)]]; auto.
  apply Hf.
Qed.

Lemma run_consistent st events : consistent st -> consistent (run st events).
Proof.
  revert st. induction events as [|e rest IH]; simpl; intros st Hc; auto.
  apply IH, step_consistent, Hc.
Qed.

Lemma consistent_init : consistent init.
Proof. apply map_Forall_empty. Qed.

Lemma filter_none {A} (P : A -> Prop) `{forall x, Decision (P x)} (l : list A) :
  Forall (fun x => ~ P x) l -> filter P l = [].
Proof.
  induction 1 as [|x l Hx _ IH]; auto.
  rewrite filter_cons_False; auto.
Qed.

(** An event about another job changes nothing of job [id]. *)
Lemma step_frame id st e :
  consistent st -> event_job st e <> Some id ->
  jobsInProcess (step st e) !! id = jobsInProcess st !! id /\
  tasks_of id (pending (step st e)) = tasks_of id (pending st) /\
  outcomes id (step st e) = outcomes id st.
Proof.
  intros Hc Hne.
  destruct (step_cases st e Hc) as [-> | [[t ->] | (j & st0 & Hj & Hf & Hst0)]]; auto.
  assert (Hji : id <> j) by congruence.
  destruct Hf as (_ & Hjobs & (new & Hp & Hnew) & (out & Hs & Hout) & _).
  unfold outcomes, tasks_of.
  rewrite Hjobs, Hp, Hs, !filter_app by auto.
  rewrite (filter_none _ new), (filter_none _ out), !app_nil_r.
  - destruct Hst0 as [-> | (i & t & Hi & Ht & ->)]; auto.
    simpl. split_and!; auto.
    apply (tasks_of_delete_other id _ _ _ Hi). congruence.
  - eapply Forall_impl; [apply Hout | simpl; congruence].
  - eapply Forall_impl; [apply Hnew | simpl; congruence].
Qed.

(** ** A resolved job stays silent *)

Lemma Forall_tasks_of (P : task -> Prop) id ts :
  Forall P (tasks_of id ts) <-> Forall (fun t => task_job t = id -> P t) ts.
Proof.
  unfold tasks_of. induction ts as [|t ts IH]; simpl.
  - split; constructor.
  - rewrite filter_cons. destruct (decide (task_job t = id)) as [Ht|Ht].
    + rewrite !Forall_cons, IH. tauto.
    + rewrite Forall_cons, IH. tauto.
Qed.

Lemma has_absent st id :
  jobsInProcess st !! id = None ->
  bool_decide (is_Some (jobsInProcess st !! id)) = false.
Proof. intros ->. apply bool_decide_eq_false. apply is_Some_None. Qed.

Lemma has_present st id c :
  jobsInProcess st !! id = Some c ->
  bool_decide (is_Some (jobsInProcess st !! id)) = true.
Proof. intros ->. apply bool_decide_eq_true. eauto. Qed.

(** A worker message for an id that is not in [jobsInProcess] is
    acknowledged and logged, nothing else. *)
Lemma pubsubMessageHandler_absent st msg :
  jobsInProcess st !! p_id (w_payload msg) = None ->
  let st' := exec (pubsubMessageHandler msg) st in
  jobsInProcess st' = jobsInProcess st /\ pending st' = pending st /\
  sent st' = sent st /\ started st' = started st /\
  uncaught st' = uncaught st /\ rejections st' = rejections st /\
  clock st' = clock st.
Proof.
  intros Habs. unfold pubsubMessageHandler. cbn [exec].
  destruct (String.eqb _ _); [ | destruct (String.eqb _ _) ]; cbn [exec].
  - change (jobsInProcess (log _ _ (ack st))) with (jobsInProcess st).
    rewrite (has_absent st _ Habs). simpl. auto 10.
  - change (jobsInProcess (log _ _ (ack st))) with (jobsInProcess st).
    rewrite (has_absent st _ Habs). simpl. auto 10.
  - simpl. auto 10.
Qed.

(** The timeout closure of a job whose entry is gone only logs. *)
Lemma onTimeout_absent st c :
  jobsInProcess st !! job_id (c_msg c) = None ->
  let st' := exec (onTimeout c) st in
  jobsInProcess st' = jobsInProcess st /\ pending st' = pending st /\
  sent st' = sent st /\ started st' = started st /\
  uncaught st' = uncaught st /\ rejections st' = rejections st /\
  clock st' = clock st.
Proof.
  intros Habs. unfold onTimeout. cbn [exec].
  change (jobsInProcess (log _ _ st)) with (jobsInProcess st).
  rewrite (has_absent st _ Habs). simpl. auto 10.
Qed.

(** The timeout closure of a job whose entry is present removes the entry
    and then reports the failure. *)
Lemma onTimeout_present st c c' :
  jobsInProcess st !! job_id (c_msg c) = Some c' ->
  let st' := exec (onTimeout c) st in
  jobsInProcess st' = delete (job_id (c_msg c)) (jobsInProcess st) /\
  pending st' = pending st /\
  sent st' =
    sent st ++ [failed (job_id (c_msg c))
                  ("File failed to process with timeout " +:+ c_file c)] /\
  started st' = started st /\
  uncaught st' = uncaught st /\ rejections st' = rejections st /\
  clock st' = clock st.
Proof.
  intros Hpre. unfold onTimeout. cbn [exec].
  change (jobsInProcess (log _ _ st)) with (jobsInProcess st).
  rewrite (has_present st _ _ Hpre). simpl. auto 10.
Qed.

Lemma outcomes_sent id st st' : sent st' = sent st -> outcomes id st' = outcomes id st.
Proof. unfold outcomes. congruence. Qed.

Lemma crashed_false st : crashed st = false -> uncaught st = None.
Proof. unfold crashed. destruct (uncaught st); congruence. Qed.

Lemma step_resolved id st e :
  consistent st -> resolved id st -> resubmits id e = false ->
  resolved id (step st e) /\ outcomes id (step st e) = outcomes id st.
Proof.
  intros Hc [Habs Hh] Hre.
  destruct (decide (event_job st e = Some id)) as [Hj|Hj].
  2:{ destruct (step_frame id st e Hc Hj) as (Hjobs & Htasks & Hout).
      unfold resolved. rewrite Hjobs, Htasks. auto. }
  unfold step. destruct (crashed st); [ split; [split|]; auto | ].
  destruct e as [msg|msg|i r|i|ms]; simpl in Hj, Hre.
  - apply bool_decide_eq_false in Hre. congruence.
  - injection Hj as Hj. rewrite <- Hj in Habs.
    destruct (pubsubMessageHandler_absent st msg Habs) as (Hjobs & Hp & Hs & _).
    unfold resolved. rewrite Hjobs, Hp, Hj in *. split; [split|]; auto.
    apply outcomes_sent; auto.
  - destruct (pending st !! i) as [[req k|due c]|] eqn:E; try discriminate.
    injection Hj as Hj.
    apply Forall_tasks_of in Hh.
    pose proof (Forall_delete _ _ i Hh) as Hd.
    rewrite Forall_lookup in Hh. specialize (Hh i _ E Hj).
    destruct k as [c|c|c outs]; try discriminate.
    destruct r as [data|reason]; simpl.
    + split; [split|]; auto. simpl.
      apply Forall_tasks_of, Forall_app. split; auto.
    + split; [split|]; auto. simpl. apply Forall_tasks_of; auto.
  - destruct (pending st !! i) as [[req k|due c]|] eqn:E; try discriminate.
    injection Hj as Hj.
    destruct (due <=? clock st); [ | split; [split|]; auto ].
    apply Forall_tasks_of in Hh.
    pose proof (Forall_delete _ _ i Hh) as Hd.
    assert (Habs' : jobsInProcess (with_pending (delete i) st) !! job_id (c_msg c) = None)
      by (rewrite Hj; exact Habs).
    destruct (onTimeout_absent _ c Habs') as (Hjobs & Hp & Hs & _).
    unfold resolved. rewrite Hjobs, Hp. simpl. split; [split|]; auto.
    * apply Forall_tasks_of; auto.
    * apply outcomes_sent; auto.
  - discriminate.
Qed.

Lemma run_resolved id events : forall st,
  consistent st -> resolved id st ->
  forallb (fun e => negb (resubmits id e)) events = true ->
  resolved id (run st events) /\ outcomes id (run st events) = outcomes id st.
Proof.
  induction events as [|e rest IH]; simpl; intros st Hc Hr Hall; auto.
  apply andb_prop in Hall as [He Hall]. apply negb_true_iff in He.
  destruct (step_resolved id st e Hc Hr He) as [Hr' Ho'].
  destruct (IH (step st e) (step_consistent st e Hc) Hr' Hall) as [Hr'' Ho''].
  split; auto. congruence.
Qed.

(** Events about other jobs leave job [id] as it is. *)
Lemma run_quiet id events : forall st,
  consistent st -> quiet id st events = true ->
  jobsInProcess (run st events) !! id = jobsInProcess st !! id /\
  tasks_of id (pending (run st events)) = tasks_of id (pending st) /\
  outcomes id (run st events) = outcomes id st.
Proof.
  induction events as [|e rest IH]; simpl; intros st Hc Hq; auto.
  apply andb_prop in Hq as [He Hq]. apply negb_true_iff in He.
  unfold concerns in He. apply bool_decide_eq_false in He.
  destruct (step_frame id st e Hc He) as (Hj & Ht & Ho).
  destruct (IH (step st e) (step_consistent st e Hc) Hq) as (Hj' & Ht' & Ho').
  split_and!; congruence.
Qed.

(** ** The listener run by an event *)

Lemma step_handler st e :
  step st e =
  match handler st e with
  | Some (p, st0) => exec p st0
  | None =>
      match e with
      | Elapse ms =>
          if crashed st then st
          else if 0 <=? ms then with_clock (clock st + ms) st else st
      | _ => st
      end
  end.
Proof.
  unfold step, handler. destruct (crashed st); [ destruct e; reflexivity | ].
  destruct e as [msg|msg|i r|i|ms]; auto.
  - destruct (pending st !! i) as [[req k|due c]|]; auto.
  - destruct (pending st !! i) as [[req k|due c]|]; auto.
    destruct (due <=? clock st); auto.
Qed.

Lemma processImage_failures_after_removal st msg :
  jobsInProcess st !! job_id msg = None ->
  failures_after_removal (processImage msg) st.
Proof.
  intros Hfresh. unfold processImage.
  destruct (wrong_input_paths msg); simpl; auto.
  destruct (job_inputPaths msg) as [[|first rest]|]; simpl; auto.
Qed.

Lemma handler_failures_after_removal st e p st0 :
  handler st e = Some (p, st0) ->
  (forall msg, e = FromGatsby msg ->
               jobsInProcess st !! job_id (g_payload msg) = None) ->
  failures_after_removal p st0.
Proof.
  unfold handler. destruct (crashed st); [discriminate | ].
  destruct e as [msg|msg|i r|i|ms]; intros Hh Hfresh.
  - injection Hh as <- <-. specialize (Hfresh msg eq_refl).
    unfold onGatsbyMessage. cbn [failures_after_removal].
    destruct (String.eqb _ _); [ | destruct (String.eqb _ _); simpl; auto ].
    unfold JOB_TYPES.
    destruct (String.eqb _ _).
    { apply processImage_failures_after_removal. exact Hfresh. }
    repeat (case_bool_decide; simpl; auto).
  - injection Hh as <- <-.
    unfold pubsubMessageHandler. cbn [failures_after_removal].
    destruct (String.eqb _ _); [ | destruct (String.eqb _ _) ];
      cbn [failures_after_removal]; auto.
    + destruct (bool_decide _); cbn [failures_after_removal]; auto.
      destruct (jobsInProcess _ !! _) as [c|]; cbn [failures_after_removal]; auto.
      unfold callback. destruct (p_output _); simpl; auto.
    + destruct (bool_decide _); cbn [failures_after_removal]; auto.
      split; auto. intros _. simpl. apply lookup_delete_eq.
  - destruct (pending st !! i) as [[req k|due c]|]; try discriminate.
    injection Hh as <- <-.
    destruct k as [c|c|c outs], r as [data|reason]; simpl; auto.
    + destruct (_ <? _); simpl; auto.
    + split; auto. discriminate.
  - destruct (pending st !! i) as [[req k|due c]|]; try discriminate.
    destruct (due <=? clock st); try discriminate.
    injection Hh as <- <-.
    unfold onTimeout. cbn [failures_after_removal].
    destruct (bool_decide _); cbn [failures_after_removal]; auto.
    split; auto. intros _. simpl. apply lookup_delete_eq.
  - discriminate.
Qed.

(** ** What the producer's listener does with a job it does not dispatch *)

(** More than one input path: the guard rejects the job. *)
Lemma too_many_input_paths_rejected st msg paths :
  crashed st = false ->
  g_type msg = MESSAGE_TYPES.JOB_CREATED ->
  job_name (g_payload msg) = "IMAGE_PROCESSING" ->
  job_inputPaths (g_payload msg) = Some paths ->
  (1 < length paths)%nat ->
  let st' := step st (FromGatsby msg) in
  sent st' = sent st ++ [failed (job_id (g_payload msg)) "Wrong number of input paths"] /\
  jobsInProcess st' = jobsInProcess st /\
  started st' = started st /\
  pending st' = pending st.
Proof.
  intros Hlive Htype Hname Hpaths Hlen. unfold step. rewrite Hlive.
  unfold onGatsbyMessage, JOB_TYPES. rewrite Htype, Hname. cbn [exec String.eqb].
  simpl. unfold processImage, wrong_input_paths. rewrite Hpaths.
  apply Nat.ltb_lt in Hlen. rewrite Hlen. simpl. auto.
Qed.

(** No input path at all: the guard lets the job through and the read of
    [msg.inputPaths[0].path] throws inside [processImage]. *)
Lemma no_input_path_throws st msg :
  crashed st = false ->
  g_type msg = MESSAGE_TYPES.JOB_CREATED ->
  job_name (g_payload msg) = "IMAGE_PROCESSING" ->
  job_inputPaths (g_payload msg) = Some [] ->
  let st' := step st (FromGatsby msg) in
  sent st' = sent st /\
  rejections st' =
    rejections st ++ [TypeError "Cannot read property 'path' of undefined"] /\
  jobsInProcess st' = jobsInProcess st /\
  started st' = started st /\
  pending st' = pending st.
Proof.
  intros Hlive Htype Hname Hpaths. unfold step. rewrite Hlive.
  unfold onGatsbyMessage, JOB_TYPES. rewrite Htype, Hname. cbn [exec String.eqb].
  simpl. unfold processImage, wrong_input_paths. rewrite Hpaths. simpl. auto.
Qed.

(** A job type that [JOB_TYPES] does not resolve: the listener throws before
    it sends. *)
Lemma unlisted_job_type_throws st msg :
  crashed st = false ->
  g_type msg = MESSAGE_TYPES.JOB_CREATED ->
  JOB_TYPES (job_name (g_payload msg)) = None ->
  let st' := step st (FromGatsby msg) in
  uncaught st' = Some (ReferenceError "JOB_NOT_WHITELISTED") /\
  sent st' = sent st /\
  jobsInProcess st' = jobsInProcess st /\
  started st' = started st /\
  pending st' = pending st.
Proof.
  intros Hlive Htype Hnone. unfold step. rewrite Hlive.
  unfold onGatsbyMessage. rewrite Htype, Hnone. simpl. auto.
Qed.

(** A rejected publish or save: the [catch] block logs and [processImage]
    returns; the entry registered before the send is still there and no timer
    has been armed. *)
Lemma rejected_send_only_logs st i req c reason :
  crashed st = false ->
  pending st !! i = Some (PendingIo req (AfterSend c)) ->
  let st' := step st (Settle i (Rejected reason)) in
  sent st' = sent st /\
  jobsInProcess st' = jobsInProcess st /\
  pending st' = delete i (pending st) /\
  logged st' = logged st ++ [(Error, "Error during publish: ")].
Proof.
  intros Hlive Hi. unfold step. rewrite Hlive, Hi. simpl. auto.
Qed.

(** ** Properties of every state *)

(** C9.  Whenever [JOB_FAILED] is sent to the producer for an id,
    [jobsInProcess] does not hold that id at that moment: [processImage]
    rejects a job without inserting anything, and the worker-failure branch
    and the timeout closure delete the entry before they send.  Job ids are
    the producer's and unique: a job arrives under an id that is not in
    flight. *)
Theorem failure_sent_after_removal st events :
  fresh_ids st events = true -> run_failures_after_removal st events.
Proof.
  revert st. induction events as [|e rest IH]; simpl; intros st Hfresh; auto.
  apply andb_prop in Hfresh as [He Hrest]. split; [ | apply IH; exact Hrest ].
  destruct (handler st e) as [[p st0]|] eqn:Hh; auto.
  apply (handler_failures_after_removal st e p st0 Hh).
  intros msg ->. apply bool_decide_eq_true in He. exact He.
Qed.

(** C10.  A [JOB_CREATED] message for an image job whose [inputPaths] is
    missing is answered with one message of type [JOB_FAILED] that carries
    the id of the job and the error 'Wrong number of input paths'; no entry
    is created, no operation is started, and nothing is thrown. *)
Theorem missing_input_paths_rejected st msg :
  crashed st = false ->
  g_type msg = "JOB_CREATED" ->
  job_name (g_payload msg) = "IMAGE_PROCESSING" ->
  job_inputPaths (g_payload msg) = None ->
  let st' := step st (FromGatsby msg) in
  sent st' =
    sent st ++
      [{| msg_type := "JOB_FAILED";
          msg_payload :=
            FailurePayload (job_id (g_payload msg)) "Wrong number of input paths" |}] /\
  jobsInProcess st' = jobsInProcess st /\
  started st' = started st /\
  pending st' = pending st /\
  uncaught st' = None /\
  rejections st' = rejections st.
Proof.
  intros Hlive Htype Hname Hpaths. unfold step. rewrite Hlive.
  unfold onGatsbyMessage, JOB_TYPES. rewrite Htype, Hname. cbn [exec String.eqb].
  simpl. unfold processImage, wrong_input_paths. rewrite Hpaths. simpl.
  split_and!; auto. apply crashed_false; auto.
Qed.

(** C7.  The serialised envelope is published to the worker topic when it
    is shorter than 5,242,880 bytes; otherwise, the threshold included, its
    base64 text is saved in the bucket [event-processing-<WORKER_TOPIC>]
    under the object name [event-<id>]. *)
Theorem transport_by_size st c data :
  let msg := c_msg c in
  let pubsubMsg :=
    serialize {| env_file := data; env_action := job_args msg;
                 env_topic := TOPIC; env_id := job_id msg |} in
  let request :=
    if Z.of_nat (length pubsubMsg) <? 5242880 then Publish WORKER_TOPIC pubsubMsg
    else SaveBlob ("event-processing-" +:+ template WORKER_TOPIC)
                  ("event-" +:+ job_id msg) (base64 pubsubMsg) in
  let st' := exec (afterRead c (Fulfilled data)) st in
  started st' = started st ++ [request] /\
  pending st' = pending st ++ [PendingIo request (AfterSend c)] /\
  sent st' = sent st /\
  MAX_PUB_SUB_SIZE = 5242880 /\
  (MAX_PUB_SUB_SIZE <? MAX_PUB_SUB_SIZE) = false.
Proof.
  simpl. change MAX_PUB_SUB_SIZE with 5242880.
  destruct (_ <? 5242880); simpl; auto.
Qed.

(** C8, as the code has it.  Registering a callback under an id that is
    already in [jobsInProcess] replaces the earlier callback without any
    error; the map still holds one entry for the id, and the other entries
    are as before. *)
Theorem registration_replaces_entry st c earlier data :
  jobsInProcess st !! job_id (c_msg c) = Some earlier ->
  let id := job_id (c_msg c) in
  let st' := exec (afterRead c (Fulfilled data)) st in
  jobsInProcess st' !! id = Some c /\
  (forall i, i <> id -> jobsInProcess st' !! i = jobsInProcess st !! i) /\
  size (jobsInProcess st') = size (jobsInProcess st) /\
  uncaught st' = uncaught st /\
  rejections st' = rejections st /\
  sent st' = sent st.
Proof.
  intros Hpre.
  assert (Hsize : size (<[job_id (c_msg c) := c]> (jobsInProcess st))
                  = size (jobsInProcess st)).
  { rewrite <- (insert_delete_eq (jobsInProcess st)).
    rewrite map_size_insert_None by apply lookup_delete_eq.
    rewrite <- (insert_delete_id (jobsInProcess st) _ _ Hpre) at 2.
    rewrite map_size_insert_None by apply lookup_delete_eq. reflexivity. }
  simpl. destruct (_ <? _); simpl; split_and!; auto;
    solve [ apply lookup_insert_eq | intros i Hi; apply lookup_insert_ne; auto ].
Qed.

(** ** Dispatch, timeout and responses along a run *)

Lemma outcomes_app id st st' m :
  sent st' = sent st ++ [m] -> payload_id (msg_payload m) = id ->
  outcomes id st' = outcomes id st ++ [m].
Proof.
  intros Hs Hm. unfold outcomes. rewrite Hs, filter_app.
  rewrite filter_cons_True by exact Hm. reflexivity.
Qed.

(** When the awaited send is fulfilled, the timer is armed [MAX_JOB_TIME]
    from now and nothing else changes. *)
Lemma send_fulfilled_arms_timer st i req c data :
  crashed st = false ->
  pending st !! i = Some (PendingIo req (AfterSend c)) ->
  let st' := step st (Settle i (Fulfilled data)) in
  pending st' = delete i (pending st) ++ [Timer (clock st + MAX_JOB_TIME) c] /\
  jobsInProcess st' = jobsInProcess st /\ sent st' = sent st /\
  clock st' = clock st /\ uncaught st' = uncaught st.
Proof.
  intros Hlive Hi. unfold step. rewrite Hlive, Hi. simpl. auto.
Qed.

(** A due timer whose job is still in [jobsInProcess] removes the entry and
    reports the timeout; a timer that is not due does not run. *)
Lemma fire_present st i due c kept :
  crashed st = false ->
  pending st !! i = Some (Timer due c) ->
  jobsInProcess st !! job_id (c_msg c) = Some kept ->
  let st' := step st (Fire i) in
  if due <=? clock st then
    pending st' = delete i (pending st) /\
    jobsInProcess st' = delete (job_id (c_msg c)) (jobsInProcess st) /\
    sent st' =
      sent st ++ [failed (job_id (c_msg c))
                    ("File failed to process with timeout " +:+ c_file c)]
  else st' = st.
Proof.
  intros Hlive Hi Hpre. unfold step. rewrite Hlive, Hi.
  destruct (due <=? clock st); auto.
  assert (Hpre' : jobsInProcess (with_pending (delete i) st) !! job_id (c_msg c)
                  = Some kept) by exact Hpre.
  destruct (onTimeout_present _ c kept Hpre') as (Hj & Hp & Hs & _).
  rewrite Hj, Hp, Hs. auto.
Qed.

(** C6.  A job is dispatched when its send is fulfilled: the timer is then
    armed for 60,000 ms.  If nothing about the job happens in between (no
    worker response for its id), then the timer does not run before the
    deadline; when it runs at or after the deadline, the entry is removed
    and exactly one [JOB_FAILED] naming the job and its file is sent; and
    from then on no event, late worker responses included, makes the
    dispatcher tell the producer anything more about that id. *)
Theorem timeout_reports_once st i0 req c data events i late :
  let id := job_id (c_msg c) in
  let deadline := clock st + 60000 in
  consistent st ->
  crashed st = false ->
  pending st !! i0 = Some (PendingIo req (AfterSend c)) ->
  tasks_of id (pending st) = [PendingIo req (AfterSend c)] ->
  is_Some (jobsInProcess st !! id) ->
  let st1 := step st (Settle i0 (Fulfilled data)) in
  quiet id st1 events = true ->
  let st2 := run st1 events in
  crashed st2 = false ->
  pending st2 !! i = Some (Timer deadline c) ->
  forallb (fun e => negb (resubmits id e)) late = true ->
  let st3 := step st2 (Fire i) in
  tasks_of id (pending st2) = [Timer deadline c] /\
  outcomes id st2 = outcomes id st /\
  if deadline <=? clock st2 then
    outcomes id st3 =
      outcomes id st ++
        [{| msg_type := "JOB_FAILED";
            msg_payload :=
              FailurePayload id ("File failed to process with timeout " +:+ c_file c) |}] /\
    jobsInProcess st3 !! id = None /\
    outcomes id (run st3 late) = outcomes id st3 /\
    jobsInProcess (run st3 late) !! id = None
  else st3 = st2.
Proof.
  intros id deadline Hc Hlive Hi0 Htasks [kept Hkept] st1 Hquiet st2 Hlive2 Hi Hlate st3.
  destruct (send_fulfilled_arms_timer st i0 req c data Hlive Hi0)
    as (Hp1 & Hj1 & Hs1 & _).
  fold st1 in Hp1, Hj1, Hs1.
  assert (Hc1 : consistent st1) by (apply step_consistent; exact Hc).
  assert (Ht1 : tasks_of id (pending st1) = [Timer deadline c]).
  { rewrite Hp1. unfold tasks_of. rewrite filter_app.
    fold (tasks_of id (delete i0 (pending st))).
    rewrite (tasks_of_delete_last id _ i0 _ [] Hi0 Htasks) by set_solver.
    rewrite filter_cons_True by reflexivity. reflexivity. }
  destruct (run_quiet id events st1 Hc1 Hquiet) as (Hj2 & Ht2 & Ho2).
  fold st2 in Hj2, Ht2, Ho2.
  assert (Hc2 : consistent st2) by (apply run_consistent; exact Hc1).
  assert (Hkept2 : jobsInProcess st2 !! job_id (c_msg c) = Some kept)
    by (fold id; rewrite Hj2, Hj1; exact Hkept).
  split_and!.
  - rewrite Ht2. exact Ht1.
  - rewrite Ho2. apply outcomes_sent. exact Hs1.
  - pose proof (fire_present st2 i deadline c kept Hlive2 Hi Hkept2) as Hfire.
    fold st3 in Hfire. simpl in Hfire.
    destruct (deadline <=? clock st2); [ | exact Hfire ].
    destruct Hfire as (Hp3 & Hj3 & Hs3).
    assert (Ho3 : outcomes id st3 =
                  outcomes id st ++
                    [failed id ("File failed to process with timeout " +:+ c_file c)]).
    { rewrite (outcomes_app id st2 st3 _ Hs3) by reflexivity.
      rewrite Ho2, (outcomes_sent id st st1 Hs1). reflexivity. }
    assert (Hr3 : resolved id st3).
    { split.
      - rewrite Hj3. apply lookup_delete_eq.
      - rewrite Hp3.
        rewrite (tasks_of_delete_last id _ i _ [] Hi) by (rewrite ?Ht2, ?Ht1; set_solver).
        constructor. }
    destruct (run_resolved id late st3 (step_consistent st2 _ Hc2) Hr3 Hlate)
      as [[Hj4 _] Ho4].
    split_and!; auto. apply Hr3.
Qed.

(** A [JOB_FAILED] response for a job in flight removes the entry and then
    forwards the worker's payload. *)
Lemma failed_response_present st msg kept :
  crashed st = false ->
  w_type msg = MESSAGE_TYPES.JOB_FAILED ->
  jobsInProcess st !! p_id (w_payload msg) = Some kept ->
  let st' := step st (FromWorker msg) in
  jobsInProcess st' = delete (p_id (w_payload msg)) (jobsInProcess st) /\
  pending st' = pending st /\
  sent st' = sent st ++ [{| msg_type := MESSAGE_TYPES.JOB_FAILED;
                            msg_payload := ForwardedPayload (w_payload msg) |}].
Proof.
  intros Hlive Htype Hpre. unfold step. rewrite Hlive.
  unfold pubsubMessageHandler. rewrite Htype. cbn [exec String.eqb].
  simpl String.eqb. cbn iota. cbn [exec].
  change (jobsInProcess (log _ _ (ack st))) with (jobsInProcess st).
  rewrite (has_present st _ _ Hpre). simpl. auto.
Qed.

(** A [JOB_COMPLETED] response for a job in flight calls the stored
    callback, which starts the writes; the entry stays and nothing is sent
    yet. *)
Lemma completed_response_present st msg c outs :
  crashed st = false ->
  w_type msg = MESSAGE_TYPES.JOB_COMPLETED ->
  p_output (w_payload msg) = Some outs ->
  jobsInProcess st !! p_id (w_payload msg) = Some c ->
  let st' := step st (FromWorker msg) in
  jobsInProcess st' = jobsInProcess st /\
  pending st' =
    pending st ++ [PendingIo (WriteOutputs (job_outputDir (c_msg c)) outs)
                     (AfterWrites c outs)] /\
  sent st' = sent st.
Proof.
  intros Hlive Htype Houts Hpre. unfold step. rewrite Hlive.
  unfold pubsubMessageHandler. rewrite Htype. cbn [exec String.eqb].
  simpl String.eqb. cbn iota. cbn [exec].
  change (jobsInProcess (log _ _ (ack st))) with (jobsInProcess st).
  rewrite (has_present st _ _ Hpre). cbn iota. cbn [exec].
  change (jobsInProcess (log _ _ (ack st))) with (jobsInProcess st).
  rewrite Hpre. unfold callback. rewrite Houts. simpl. auto.
Qed.

(** When the writes of the callback settle: on success the completion is
    sent and the entry deleted, on failure the [catch] block logs. *)
Lemma writes_settled st i req c outs r :
  crashed st = false ->
  pending st !! i = Some (PendingIo req (AfterWrites c outs)) ->
  let st' := step st (Settle i r) in
  pending st' = delete i (pending st) /\
  uncaught st' = None /\
  match r with
  | Fulfilled _ =>
      sent st' = sent st ++ [completed_message (job_id (c_msg c)) outs] /\
      jobsInProcess st' = delete (job_id (c_msg c)) (jobsInProcess st)
  | Rejected _ =>
      sent st' = sent st /\ jobsInProcess st' = jobsInProcess st /\
      logged st' = logged st ++ [(Error, "Failed to execute callback")]
  end.
Proof.
  intros Hlive Hi. unfold step. rewrite Hlive, Hi.
  apply crashed_false in Hlive.
  destruct r as [data|reason]; simpl; auto.
Qed.

Lemma not_harmless_not_in (t : task) (hs : list task) :
  harmless t = false -> Forall (fun h => harmless h = true) hs -> t ∉ hs.
Proof.
  intros Ht Hhs Hin. rewrite Forall_forall in Hhs.
  specialize (Hhs t Hin). congruence.
Qed.

(** Responses outside the window of a finalisation.  For a job in flight
    with no finalisation under way: a [JOB_FAILED] response removes the entry and then sends exactly
    one [JOB_FAILED]; a [JOB_COMPLETED] response starts the writes, and when
    they succeed with no other event about the job in between, exactly one
    [JOB_COMPLETED] is sent and the entry is removed.  After either, no
    event (the timer of the job firing, a duplicate response) makes the
    dispatcher tell the producer anything more about that id. *)
Theorem response_resolves_once st msg c late :
  let id := p_id (w_payload msg) in
  consistent st ->
  crashed st = false ->
  jobsInProcess st !! id = Some c ->
  Forall (fun t => harmless t = true) (tasks_of id (pending st)) ->
  forallb (fun e => negb (resubmits id e)) late = true ->
  let st1 := step st (FromWorker msg) in
  (w_type msg = MESSAGE_TYPES.JOB_FAILED ->
   outcomes id st1 =
     outcomes id st ++ [{| msg_type := MESSAGE_TYPES.JOB_FAILED;
                           msg_payload := ForwardedPayload (w_payload msg) |}] /\
   jobsInProcess st1 !! id = None /\
   outcomes id (run st1 late) = outcomes id st1 /\
   jobsInProcess (run st1 late) !! id = None) /\
  (forall outs events i data,
     w_type msg = MESSAGE_TYPES.JOB_COMPLETED ->
     p_output (w_payload msg) = Some outs ->
     quiet id st1 events = true ->
     let st2 := run st1 events in
     crashed st2 = false ->
     pending st2 !! i =
       Some (PendingIo (WriteOutputs (job_outputDir (c_msg c)) outs) (AfterWrites c outs)) ->
     let st3 := step st2 (Settle i (Fulfilled data)) in
     outcomes id st2 = outcomes id st /\
     outcomes id st3 = outcomes id st ++ [completed_message id outs] /\
     jobsInProcess st3 !! id = None /\
     outcomes id (run st3 late) = outcomes id st3 /\
     jobsInProcess (run st3 late) !! id = None).
Proof.
  intros id Hc Hlive Hpre Hh Hlate st1.
  assert (Hid : job_id (c_msg c) = id) by exact (Hc _ _ Hpre).
  assert (Hc1 : consistent st1) by (apply step_consistent; exact Hc).
  split.
  - intros Htype.
    destruct (failed_response_present st msg c Hlive Htype Hpre) as (Hj1 & Hp1 & Hs1).
    fold st1 in Hj1, Hp1, Hs1. fold id in Hj1.
    assert (Hr1 : resolved id st1).
    { split; [ rewrite Hj1; apply lookup_delete_eq | rewrite Hp1; exact Hh ]. }
    destruct (run_resolved id late st1 Hc1 Hr1 Hlate) as [[Hj2 _] Ho2].
    split_and!; auto.
    + apply (outcomes_app id st st1 _ Hs1). reflexivity.
    + apply Hr1.
  - intros outs events i data Htype Houts Hquiet st2 Hlive2 Hi st3.
    destruct (completed_response_present st msg c outs Hlive Htype Houts Hpre)
      as (Hj1 & Hp1 & Hs1).
    fold st1 in Hj1, Hp1, Hs1.
    set (w := PendingIo (WriteOutputs (job_outputDir (c_msg c)) outs)
                (AfterWrites c outs)) in *.
    assert (Ht1 : tasks_of id (pending st1) = tasks_of id (pending st) ++ [w]).
    { rewrite Hp1. unfold tasks_of. rewrite filter_app.
      rewrite filter_cons_True by exact Hid. reflexivity. }
    destruct (run_quiet id events st1 Hc1 Hquiet) as (Hj2 & Ht2 & Ho2).
    fold st2 in Hj2, Ht2, Ho2.
    assert (Hc2 : consistent st2) by (apply run_consistent; exact Hc1).
    destruct (writes_settled st2 i _ c outs (Fulfilled data) Hlive2 Hi)
      as (Hp3 & _ & Hs3 & Hj3).
    fold st3 in Hp3, Hs3, Hj3. rewrite Hid in Hs3, Hj3.
    assert (Ho2' : outcomes id st2 = outcomes id st).
    { rewrite Ho2. apply outcomes_sent. exact Hs1. }
    assert (Hr3 : resolved id st3).
    { split; [ rewrite Hj3; apply lookup_delete_eq | ].
      rewrite Hp3.
      rewrite (tasks_of_delete_last id _ i w (tasks_of id (pending st)) Hi).
      - exact Hh.
      - rewrite Ht2. exact Ht1.
      - apply not_harmless_not_in; [reflexivity | exact Hh]. }
    destruct (run_resolved id late st3 (step_consistent st2 _ Hc2) Hr3 Hlate)
      as [[Hj4 _] Ho4].
    split_and!; auto.
    + rewrite (outcomes_app id st2 st3 _ Hs3) by reflexivity.
      rewrite Ho2'. reflexivity.
    + apply Hr3.
Qed.

(** C5, as the code has it.  When the writes of the finalisation fail, the
    [catch] block only logs: nothing is sent and the entry stays in
    [jobsInProcess].  The job is therefore not resolved: if nothing else
    about it happens, its timer, once due, removes the entry and sends a
    [JOB_FAILED] for the id. *)
Theorem failed_finalization_left_to_timeout
    st i req c outs reason kept events j due c' :
  let id := job_id (c_msg c) in
  consistent st ->
  crashed st = false ->
  pending st !! i = Some (PendingIo req (AfterWrites c outs)) ->
  jobsInProcess st !! id = Some kept ->
  let st1 := step st (Settle i (Rejected reason)) in
  quiet id st1 events = true ->
  let st2 := run st1 events in
  crashed st2 = false ->
  pending st2 !! j = Some (Timer due c') ->
  job_id (c_msg c') = id ->
  let st3 := step st2 (Fire j) in
  sent st1 = sent st /\
  jobsInProcess st1 = jobsInProcess st /\
  logged st1 = logged st ++ [(Error, "Failed to execute callback")] /\
  uncaught st1 = None /\
  outcomes id st2 = outcomes id st /\
  jobsInProcess st2 !! id = Some kept /\
  if due <=? clock st2 then
    outcomes id st3 =
      outcomes id st ++
        [{| msg_type := "JOB_FAILED";
            msg_payload :=
              FailurePayload id ("File failed to process with timeout " +:+ c_file c') |}] /\
    jobsInProcess st3 !! id = None
  else st3 = st2.
Proof.
  intros id Hc Hlive Hi Hkept st1 Hquiet st2 Hlive2 Hj Hid st3.
  destruct (writes_settled st i req c outs (Rejected reason) Hlive Hi)
    as (Hp1 & Hu1 & Hs1 & Hj1 & Hl1).
  fold st1 in Hp1, Hu1, Hs1, Hj1, Hl1.
  assert (Hc1 : consistent st1) by (apply step_consistent; exact Hc).
  destruct (run_quiet id events st1 Hc1 Hquiet) as (Hj2 & Ht2 & Ho2).
  fold st2 in Hj2, Ht2, Ho2.
  assert (Hkept2 : jobsInProcess st2 !! job_id (c_msg c') = Some kept)
    by (rewrite Hid, Hj2, Hj1; exact Hkept).
  assert (Ho2' : outcomes id st2 = outcomes id st).
  { rewrite Ho2. apply outcomes_sent. exact Hs1. }
  split_and!; auto.
  - rewrite <- Hid. exact Hkept2.
  - pose proof (fire_present st2 j due c' kept Hlive2 Hj Hkept2) as Hfire.
    fold st3 in Hfire. simpl in Hfire.
    destruct (due <=? clock st2); [ | exact Hfire ].
    destruct Hfire as (Hp3 & Hj3 & Hs3). rewrite Hid in Hs3, Hj3.
    split.
    + rewrite (outcomes_app id st2 st3 _ Hs3) by reflexivity.
      rewrite Ho2'. reflexivity.
    + rewrite Hj3. apply lookup_delete_eq.
Qed.

(** ** Messages that the listeners ignore *)

(** X1.  A worker message about an id that is not in [jobsInProcess] (a late
    answer, a duplicate, an id never dispatched) is acknowledged and logged
    and has no other effect, whatever its type. *)
Theorem response_without_entry_ignored st msg :
  crashed st = false ->
  jobsInProcess st !! p_id (w_payload msg) = None ->
  let st' := step st (FromWorker msg) in
  jobsInProcess st' = jobsInProcess st /\
  pending st' = pending st /\
  sent st' = sent st /\
  started st' = started st /\
  acked st' = S (acked st) /\
  uncaught st' = None /\
  rejections st' = rejections st.
Proof.
  intros Hlive Habs. unfold step. rewrite Hlive. apply crashed_false in Hlive.
  unfold pubsubMessageHandler. cbn [exec].
  destruct (String.eqb _ _); [ | destruct (String.eqb _ _) ]; cbn [exec].
  - change (jobsInProcess (log _ _ (ack st))) with (jobsInProcess st).
    rewrite (has_absent st _ Habs). simpl. auto 10.
  - change (jobsInProcess (log _ _ (ack st))) with (jobsInProcess st).
    rewrite (has_absent st _ Habs). simpl. auto 10.
  - simpl. auto 10.
Qed.

(** X2.  A worker message whose type is neither [JOB_COMPLETED] nor
    [JOB_FAILED] is acknowledged and logged as an error; it resolves
    nothing, even when its id is in flight. *)
Theorem unknown_worker_message_logged st msg :
  crashed st = false ->
  w_type msg <> MESSAGE_TYPES.JOB_COMPLETED ->
  w_type msg <> MESSAGE_TYPES.JOB_FAILED ->
  let st' := step st (FromWorker msg) in
  jobsInProcess st' = jobsInProcess st /\
  pending st' = pending st /\
  sent st' = sent st /\
  acked st' = S (acked st) /\
  logged st' =
    logged st ++ [(Trace, "Got worker message"); (Error, "Unkown worker message: ")] /\
  uncaught st' = None.
Proof.
  intros Hlive Hc Hf. unfold step. rewrite Hlive. apply crashed_false in Hlive.
  unfold pubsubMessageHandler. cbn [exec].
  apply String.eqb_neq in Hc, Hf. rewrite Hc, Hf. simpl.
  rewrite <- app_assoc. auto 10.
Qed.

(** X3.  A message from gatsby whose type is not [JOB_CREATED] starts
    nothing: the listener logs (a trace, and a warning unless the type is
    [LOG_ACTION]) and returns. *)
Theorem other_gatsby_message_ignored st msg :
  crashed st = false ->
  g_type msg <> MESSAGE_TYPES.JOB_CREATED ->
  let st' := step st (FromGatsby msg) in
  jobsInProcess st' = jobsInProcess st /\
  pending st' = pending st /\
  sent st' = sent st /\
  started st' = started st /\
  uncaught st' = None /\
  rejections st' = rejections st /\
  logged st' =
    logged st ++
      (Trace, "Got gatsby message") ::
      (if String.eqb (g_type msg) MESSAGE_TYPES.LOG_ACTION then []
       else [(Warn, "Ignoring message: ")]).
Proof.
  intros Hlive Hc. unfold step. rewrite Hlive. apply crashed_false in Hlive.
  unfold onGatsbyMessage. cbn [exec].
  apply String.eqb_neq in Hc. rewrite Hc.
  destruct (String.eqb (g_type msg) MESSAGE_TYPES.LOG_ACTION); simpl;
    rewrite <- ?app_assoc; auto 10.
Qed.

(** X4.  One turn of the event loop tells the producer at most one thing.
    It is [JOB_COMPLETED] only when the turn is the fulfilment of the
    finalisation writes of that job, that is, never before the outputs are
    written; any other message is a [JOB_FAILED]. *)
Theorem turn_sends_at_most_one st e :
  (exists i data req c outs,
     e = Settle i (Fulfilled data) /\
     pending st !! i = Some (PendingIo req (AfterWrites c outs)) /\
     sent (step st e) = sent st ++ [completed_message (job_id (c_msg c)) outs]) \/
  sent (step st e) = sent st \/
  (exists m, sent (step st e) = sent st ++ [m] /\
             msg_type m = MESSAGE_TYPES.JOB_FAILED).
Proof.
  unfold step. destruct (crashed st); [ auto | ].
  destruct e as [msg|msg|i r|i|ms].
  - unfold onGatsbyMessage. cbn [exec].
    destruct (String.eqb _ _); [ | destruct (String.eqb _ _); simpl; auto ].
    unfold JOB_TYPES. destruct (String.eqb _ _).
    + unfold processImage. destruct (wrong_input_paths _); simpl.
      * right; right. eexists. split; reflexivity.
      * destruct (job_inputPaths _) as [[|first rest]|]; simpl; auto.
    + repeat (case_bool_decide; simpl; auto).
  - unfold pubsubMessageHandler. cbn [exec].
    destruct (String.eqb _ _); [ | destruct (String.eqb _ _) ]; cbn [exec]; auto.
    + destruct (bool_decide _); cbn [exec]; auto.
      destruct (jobsInProcess _ !! _) as [c|]; cbn [exec]; auto.
      unfold callback. destruct (p_output _); simpl; auto.
    + destruct (bool_decide _); simpl; auto.
      right; right. eexists. split; reflexivity.
  - destruct (pending st !! i) as [[req k|due c]|] eqn:E; auto.
    destruct k as [c|c|c outs], r as [data|reason]; simpl; auto.
    + destruct (_ <? _); simpl; auto.
    + left. exists i, data, req, c, outs. auto.
  - destruct (pending st !! i) as [[req k|due c]|]; auto.
    destruct (due <=? clock st); auto.
    unfold onTimeout. cbn [exec]. destruct (bool_decide _); simpl; auto.
    right; right. eexists. split; reflexivity.
  - destruct (0 <=? ms); auto.
Qed.

(** ** Whose jobs the dispatcher works on *)

Lemma known_mono ids ids' st : ids ⊆ ids' -> known ids st -> known ids' st.
Proof.
  intros Hsub (Hj & Hp & Hs). split_and!.
  - intros id c Hc. apply Hsub. eauto.
  - eapply Forall_impl; [ exact Hp | intros t Ht; apply Hsub, Ht ].
  - eapply Forall_impl; [ exact Hs | intros m Hm; apply Hsub, Hm ].
Qed.

Lemma framed_known ids j st st' :
  j ∈ ids -> known ids st -> framed j st st' -> known ids st'.
Proof.
  intros Hj (Hjobs & Hp & Hs) (_ & Hother & (new & Hp' & Hnew) & (out & Hs' & Hout) & _).
  unfold known. rewrite Hp', Hs'. split_and!.
  - intros id c Hc. destruct (decide (id = j)) as [->|Hne]; [ exact Hj | ].
    rewrite Hother in Hc by exact Hne. eauto.
  - apply Forall_app. split; [ exact Hp | ].
    eapply Forall_impl; [ exact Hnew | intros t ->; exact Hj ].
  - apply Forall_app. split; [ exact Hs | ].
    eapply Forall_impl; [ exact Hout | simpl; intros m ->; exact Hj ].
Qed.

(** A message from gatsby that is not the submission of an image job leaves
    entries, tasks and messages as they are. *)
Lemma not_a_submission st msg :
  String.eqb (g_type msg) MESSAGE_TYPES.JOB_CREATED
    && String.eqb (job_name (g_payload msg)) "IMAGE_PROCESSING" = false ->
  jobsInProcess (step st (FromGatsby msg)) = jobsInProcess st /\
  pending (step st (FromGatsby msg)) = pending st /\
  sent (step st (FromGatsby msg)) = sent st.
Proof.
  intros Hno. unfold step. destruct (crashed st); [ auto | ].
  unfold onGatsbyMessage. cbn [exec].
  destruct (String.eqb (g_type msg) MESSAGE_TYPES.JOB_CREATED); simpl in Hno.
  - unfold JOB_TYPES. rewrite Hno.
    repeat (case_bool_decide; simpl; auto).
  - destruct (String.eqb (g_type msg) MESSAGE_TYPES.LOG_ACTION); simpl; auto.
Qed.

Lemma step_known ids st e :
  consistent st -> known ids st -> known (ids ++ submitted [e]) (step st e).
Proof.
  intros Hc Hk.
  assert (Hk' : known (ids ++ submitted [e]) st)
    by (eapply known_mono; [ | exact Hk ]; set_solver).
  destruct (step_cases st e Hc) as [-> | [[t ->] | (j & st0 & Hj & Hf & Hst0)]];
    [ exact Hk' | exact Hk' | ].
  assert (Hk0 : known (ids ++ submitted [e]) st0).
  { destruct Hst0 as [-> | (i & t & _ & _ & ->)]; [ exact Hk' | ].
    destruct Hk' as (H1 & H2 & H3). split_and!; auto.
    simpl. apply Forall_delete. exact H2. }
  destruct e as [msg|msg|i r|i|ms]; simpl in Hj.
  - injection Hj as <-.
    destruct (String.eqb (g_type msg) MESSAGE_TYPES.JOB_CREATED
              && String.eqb (job_name (g_payload msg)) "IMAGE_PROCESSING") eqn:E.
    + eapply framed_known; [ | exact Hk0 | exact Hf ].
      apply elem_of_app. right. simpl. rewrite E. constructor.
    + destruct (not_a_submission st msg E) as (Hjobs & Hp & Hs).
      unfold known. rewrite Hjobs, Hp, Hs. exact Hk'.
  - injection Hj as <-.
    destruct (jobsInProcess st !! p_id (w_payload msg)) as [c|] eqn:E.
    + eapply framed_known; [ | exact Hk0 | exact Hf ].
      destruct Hk as (H1 & _). apply elem_of_app. left. eauto.
    + unfold step. destruct (crashed st); [ exact Hk' | ].
      destruct (pubsubMessageHandler_absent st msg E) as (Hjobs & Hp & Hs & _).
      destruct Hk' as (H1 & H2 & H3). unfold known. rewrite Hjobs, Hp, Hs. auto.
  - destruct (pending st !! i) as [[req k|due c]|] eqn:E; try discriminate.
    injection Hj as <-.
    eapply framed_known; [ | exact Hk0 | exact Hf ].
    destruct Hk as (_ & H2 & _). rewrite Forall_lookup in H2.
    apply elem_of_app. left. apply (H2 i _ E).
  - destruct (pending st !! i) as [[req k|due c]|] eqn:E; try discriminate.
    injection Hj as <-.
    eapply framed_known; [ | exact Hk0 | exact Hf ].
    destruct Hk as (_ & H2 & _). rewrite Forall_lookup in H2.
    apply elem_of_app. left. apply (H2 i _ E).
  - discriminate.
Qed.

Lemma submitted_cons e events : submitted (e :: events) = submitted [e] ++ submitted events.
Proof.
  destruct e as [msg| | | | ]; simpl; auto.
  destruct (_ && _); reflexivity.
Qed.

Lemma run_known events : forall ids st,
  consistent st -> known ids st -> known (ids ++ submitted events) (run st events).
Proof.
  induction events as [|e rest IH]; intros ids st Hc Hk.
  - simpl. rewrite app_nil_r. exact Hk.
  - rewrite submitted_cons, app_assoc. simpl.
    apply IH; [ apply step_consistent, Hc | apply step_known; assumption ].
Qed.

(** X5.  Whatever the events, the dispatcher started empty only ever holds an
    entry, awaits an operation, arms a timer or sends the producer a
    message for an id under which gatsby submitted an [IMAGE_PROCESSING]
    job: a worker message cannot make it track or report a job of its own
    invention. *)
Theorem only_submitted_jobs events :
  let st := run init events in
  (forall id c, jobsInProcess st !! id = Some c -> id ∈ submitted events) /\
  Forall (fun t => task_job t ∈ submitted events) (pending st) /\
  Forall (fun m => payload_id (msg_payload m) ∈ submitted events) (sent st).
Proof.
  apply (run_known events [] init consistent_init).
  split_and!; [ intros id c Hc | constructor | constructor ].
  change (jobsInProcess init) with (∅ : gmap string captured) in Hc.
  rewrite lookup_empty in Hc. discriminate.
Qed.

(** ** From the submission to the armed timer *)

(** A job with exactly one input path: [processImage] starts reading the
    file and, until the read settles, registers and sends nothing. *)
Lemma valid_submission st msg first :
  crashed st = false ->
  g_type msg = MESSAGE_TYPES.JOB_CREATED ->
  job_name (g_payload msg) = "IMAGE_PROCESSING" ->
  job_inputPaths (g_payload msg) = Some [first] ->
  let c := {| c_file := ip_path first; c_msg := g_payload msg |} in
  let st' := step st (FromGatsby msg) in
  pending st' = pending st ++ [PendingIo (ReadFile (ip_path first)) (AfterRead c)] /\
  started st' = started st ++ [ReadFile (ip_path first)] /\
  jobsInProcess st' = jobsInProcess st /\
  sent st' = sent st /\
  uncaught st' = None /\
  rejections st' = rejections st.
Proof.
  intros Hlive Htype Hname Hpaths. unfold step. rewrite Hlive.
  apply crashed_false in Hlive.
  unfold onGatsbyMessage, JOB_TYPES. rewrite Htype, Hname. cbn [exec String.eqb].
  simpl. unfold processImage, wrong_input_paths. rewrite Hpaths. simpl. auto 10.
Qed.

(** When the read settles: a rejection leaves [processImage] by an
    exception; on success the callback is registered and the envelope sent. *)
Lemma read_settled st i req c r :
  crashed st = false ->
  pending st !! i = Some (PendingIo req (AfterRead c)) ->
  let st' := step st (Settle i r) in
  sent st' = sent st /\
  match r with
  | Rejected reason =>
      pending st' = delete i (pending st) /\
      jobsInProcess st' = jobsInProcess st /\
      started st' = started st /\
      rejections st' = rejections st ++ [IoError reason]
  | Fulfilled data =>
      let pubsubMsg :=
        serialize {| env_file := data; env_action := job_args (c_msg c);
                     env_topic := TOPIC; env_id := job_id (c_msg c) |} in
      let request :=
        if Z.of_nat (length pubsubMsg) <? MAX_PUB_SUB_SIZE
        then Publish WORKER_TOPIC pubsubMsg
        else SaveBlob bucketName ("event-" +:+ job_id (c_msg c)) (base64 pubsubMsg) in
      pending st' = delete i (pending st) ++ [PendingIo request (AfterSend c)] /\
      jobsInProcess st' = <[job_id (c_msg c) := c]> (jobsInProcess st) /\
      started st' = started st ++ [request]
  end.
Proof.
  intros Hlive Hi. unfold step. rewrite Hlive, Hi.
  destruct r as [data|reason]; simpl; auto.
  destruct (_ <? _); simpl; auto.
Qed.

Lemma tasks_of_snoc id ts t :
  task_job t = id -> tasks_of id (ts ++ [t]) = tasks_of id ts ++ [t].
Proof.
  intros Ht. unfold tasks_of. rewrite filter_app, filter_cons_True by exact Ht.
  reflexivity.
Qed.

(** X6.  A job whose file cannot be read is lost without a word: the
    rejection leaves [processImage] (the read is outside its [try]), no
    entry is registered, nothing is sent to the workers, no timer is armed,
    and the producer is never told anything about the job. *)
Theorem failed_read_never_reported st msg first events i reason late :
  let id := job_id (g_payload msg) in
  let c := {| c_file := ip_path first; c_msg := g_payload msg |} in
  consistent st ->
  crashed st = false ->
  g_type msg = MESSAGE_TYPES.JOB_CREATED ->
  job_name (g_payload msg) = "IMAGE_PROCESSING" ->
  job_inputPaths (g_payload msg) = Some [first] ->
  jobsInProcess st !! id = None ->
  tasks_of id (pending st) = [] ->
  let st1 := step st (FromGatsby msg) in
  quiet id st1 events = true ->
  let st2 := run st1 events in
  crashed st2 = false ->
  pending st2 !! i = Some (PendingIo (ReadFile (ip_path first)) (AfterRead c)) ->
  forallb (fun e => negb (resubmits id e)) late = true ->
  let st3 := step st2 (Settle i (Rejected reason)) in
  rejections st3 = rejections st2 ++ [IoError reason] /\
  started st3 = started st2 /\
  tasks_of id (pending st3) = [] /\
  jobsInProcess (run st3 late) !! id = None /\
  outcomes id (run st3 late) = outcomes id st.
Proof.
  intros id c Hc Hlive Htype Hname Hpaths Hfresh Hnone st1 Hquiet st2 Hlive2 Hi Hlate st3.
  destruct (valid_submission st msg first Hlive Htype Hname Hpaths)
    as (Hp1 & _ & Hj1 & Hs1 & _).
  fold st1 c in Hp1, Hj1, Hs1.
  assert (Hc1 : consistent st1) by (apply step_consistent; exact Hc).
  assert (Ht1 : tasks_of id (pending st1)
                = [] ++ [PendingIo (ReadFile (ip_path first)) (AfterRead c)]).
  { rewrite Hp1, tasks_of_snoc by reflexivity. rewrite Hnone. reflexivity. }
  destruct (run_quiet id events st1 Hc1 Hquiet) as (Hj2 & Ht2 & Ho2).
  fold st2 in Hj2, Ht2, Ho2.
  assert (Hc2 : consistent st2) by (apply run_consistent; exact Hc1).
  destruct (read_settled st2 i _ c (Rejected reason) Hlive2 Hi)
    as (Hs3 & Hp3 & Hj3 & Hst3 & Hr3).
  fold st3 in Hs3, Hp3, Hj3, Hst3, Hr3.
  assert (Ht3 : tasks_of id (pending st3) = []).
  { rewrite Hp3. apply (tasks_of_delete_last id _ i _ [] Hi).
    - rewrite Ht2. exact Ht1.
    - set_solver. }
  assert (Hres : resolved id st3).
  { split; [ rewrite Hj3, Hj2, Hj1; exact Hfresh | rewrite Ht3; constructor ]. }
  destruct (run_resolved id late st3 (step_consistent st2 _ Hc2) Hres Hlate)
    as [[Hj4 _] Ho4].
  split_and!; auto.
  rewrite Ho4, (outcomes_sent id st2 st3 Hs3), Ho2. apply outcomes_sent. exact Hs1.
Qed.

(** X7.  Dispatch, step by step.  For a job with one input path under an id
    that is not in use: when the read is fulfilled, the callback is
    registered under the id and the envelope handed to the transport; when
    the send is fulfilled, the one timer of the job is armed 60,000 ms from
    then.  Through all of it, events of other jobs interleaved, the
    producer is told nothing about the job. *)
Theorem dispatch_registers_then_arms st msg first events i data events' i' ack' :
  let id := job_id (g_payload msg) in
  let c := {| c_file := ip_path first; c_msg := g_payload msg |} in
  let pubsubMsg :=
    serialize {| env_file := data; env_action := job_args (g_payload msg);
                 env_topic := TOPIC; env_id := id |} in
  let request :=
    if Z.of_nat (length pubsubMsg) <? MAX_PUB_SUB_SIZE
    then Publish WORKER_TOPIC pubsubMsg
    else SaveBlob bucketName ("event-" +:+ id) (base64 pubsubMsg) in
  consistent st ->
  crashed st = false ->
  g_type msg = MESSAGE_TYPES.JOB_CREATED ->
  job_name (g_payload msg) = "IMAGE_PROCESSING" ->
  job_inputPaths (g_payload msg) = Some [first] ->
  jobsInProcess st !! id = None ->
  tasks_of id (pending st) = [] ->
  let st1 := step st (FromGatsby msg) in
  quiet id st1 events = true ->
  let st2 := run st1 events in
  crashed st2 = false ->
  pending st2 !! i = Some (PendingIo (ReadFile (ip_path first)) (AfterRead c)) ->
  let st3 := step st2 (Settle i (Fulfilled data)) in
  quiet id st3 events' = true ->
  let st4 := run st3 events' in
  crashed st4 = false ->
  pending st4 !! i' = Some (PendingIo request (AfterSend c)) ->
  let st5 := step st4 (Settle i' (Fulfilled ack')) in
  jobsInProcess st2 !! id = None /\
  jobsInProcess st3 !! id = Some c /\
  tasks_of id (pending st3) = [PendingIo request (AfterSend c)] /\
  started st3 = started st2 ++ [request] /\
  jobsInProcess st5 !! id = Some c /\
  tasks_of id (pending st5) = [Timer (clock st4 + 60000) c] /\
  outcomes id st5 = outcomes id st.
Proof.
  intros id c pubsubMsg request Hc Hlive Htype Hname Hpaths Hfresh Hnone
         st1 Hquiet st2 Hlive2 Hi st3 Hquiet' st4 Hlive4 Hi' st5.
  destruct (valid_submission st msg first Hlive Htype Hname Hpaths)
    as (Hp1 & _ & Hj1 & Hs1 & _).
  fold st1 c in Hp1, Hj1, Hs1.
  assert (Hc1 : consistent st1) by (apply step_consistent; exact Hc).
  assert (Ht1 : tasks_of id (pending st1)
                = [] ++ [PendingIo (ReadFile (ip_path first)) (AfterRead c)]).
  { rewrite Hp1, tasks_of_snoc by reflexivity. rewrite Hnone. reflexivity. }
  destruct (run_quiet id events st1 Hc1 Hquiet) as (Hj2 & Ht2 & Ho2).
  fold st2 in Hj2, Ht2, Ho2.
  assert (Hc2 : consistent st2) by (apply run_consistent; exact Hc1).
  destruct (read_settled st2 i _ c (Fulfilled data) Hlive2 Hi) as (Hs3 & Hp3 & Hj3 & Hst3).
  fold st3 in Hs3, Hp3, Hj3, Hst3. simpl in Hp3, Hj3, Hst3.
  fold id pubsubMsg request in Hp3, Hj3, Hst3.
  assert (Hc3 : consistent st3) by (apply step_consistent; exact Hc2).
  assert (Ht3 : tasks_of id (pending st3) = [] ++ [PendingIo request (AfterSend c)]).
  { rewrite Hp3, tasks_of_snoc by reflexivity. f_equal.
    apply (tasks_of_delete_last id _ i _ [] Hi); [ rewrite Ht2; exact Ht1 | set_solver ]. }
  destruct (run_quiet id events' st3 Hc3 Hquiet') as (Hj4 & Ht4 & Ho4).
  fold st4 in Hj4, Ht4, Ho4.
  destruct (send_fulfilled_arms_timer st4 i' request c ack' Hlive4 Hi')
    as (Hp5 & Hj5 & Hs5 & _).
  fold st5 in Hp5, Hj5, Hs5.
  split_and!.
  - rewrite Hj2, Hj1. exact Hfresh.
  - rewrite Hj3. apply lookup_insert_eq.
  - exact Ht3.
  - exact Hst3.
  - rewrite Hj5, Hj4, Hj3. apply lookup_insert_eq.
  - rewrite Hp5, tasks_of_snoc by reflexivity.
    rewrite (tasks_of_delete_last id _ i' _ [] Hi'); [ reflexivity | | set_solver ].
    rewrite Ht4. exact Ht3.
  - rewrite (outcomes_sent id st4 st5 Hs5), Ho4, (outcomes_sent id st2 st3 Hs3), Ho2.
    apply outcomes_sent. exact Hs1.
Qed.

(** ** Start-up *)

(** X8.  Runners started at different milliseconds subscribe under
    different names. *)
Theorem subName_distinct now now' :
  now <> now' -> subName now <> subName now'.
Proof.
  intros Hne Heq. apply Hne. unfold subName in Heq. simpl in Heq.
  injection Heq as Heq. exact (pretty_Z_inj _ _ Heq).
Qed.

Lemma runner_step_exited r e code :
  exited (runner_step r e) = Some code ->
  exited r = Some code \/
  exists c, e = GatsbyExit c /\ phase r = Listening /\ code = default 0 c.
Proof.
  unfold runner_step. destruct (stopped r); [ auto | ].
  destruct e as [res|[d|reason]|c|[msg|msg|i res|i|ms]], (phase r); simpl; auto.
  intros [= <-]. right. eauto.
Qed.

Lemma runner_step_listening r e :
  phase (runner_step r e) = Listening ->
  phase r = Listening \/ exists d, e = SubscriptionSettled (Fulfilled d).
Proof.
  unfold runner_step. destruct (stopped r); [ auto | ].
  destruct e as [res|[d|reason]|c|[msg|msg|i res|i|ms]], (phase r) eqn:Hp; simpl;
    rewrite ?Hp; auto; try discriminate; eauto.
Qed.

Lemma runner_run_exited events : forall r code,
  exited (runner_run r events) = Some code ->
  exited r = Some code \/
  exists c, GatsbyExit c ∈ events /\ code = default 0 c /\
            (phase r = Listening \/
             exists d, SubscriptionSettled (Fulfilled d) ∈ events).
Proof.
  induction events as [|e rest IH]; simpl; intros r code Hex; [ auto | ].
  destruct (IH _ _ Hex) as [Hstep | (c & Hin & Hcode & Hphase)].
  - destruct (runner_step_exited r e code Hstep) as [H | (c & -> & Hl & Hc)]; [ auto | ].
    right. exists c. split_and!; [ constructor | exact Hc | auto ].
  - right. exists c. split_and!; [ constructor; exact Hin | exact Hcode | ].
    destruct Hphase as [Hl | (d & Hd)].
    + destruct (runner_step_listening r e Hl) as [H | (d & ->)]; [ auto | ].
      right. exists d. constructor.
    + right. exists d. constructor. exact Hd.
Qed.

(** X9.  The runner calls [process.exit] only from the ['exit'] listener
    that [createSubscription] puts on gatsby once the subscription exists:
    whenever it has exited, gatsby had exited, the subscription had been
    created, and the exit code is gatsby's (0 when gatsby's code is null). *)
Theorem runner_exits_with_gatsby now events code :
  exited (runner_run (boot now) events) = Some code ->
  exists c d,
    GatsbyExit c ∈ events /\
    SubscriptionSettled (Fulfilled d) ∈ events /\
    code = default 0 c.
Proof.
  intros Hex.
  destruct (runner_run_exited events _ _ Hex) as [H | (c & Hin & Hc & [H | (d & Hd)])];
    try discriminate.
  exists c, d. auto.
Qed.

Lemma listening_stays r e : phase r = Listening -> phase (runner_step r e) = Listening.
Proof.
  intros Hl. unfold runner_step. destruct (stopped r); [ exact Hl | ].
  rewrite Hl. destruct e as [res|[d|reason]|c|[msg|msg|i res|i|ms]]; simpl; auto.
Qed.

Lemma listening_stays_run events : forall r,
  phase r = Listening -> phase (runner_run r events) = Listening.
Proof.
  induction events as [|e rest IH]; simpl; intros r Hl; [ exact Hl | ].
  apply IH, listening_stays, Hl.
Qed.

(** What a turn that is not a worker message can do: it acknowledges
    nothing, starts no finalisation, and tells the producer failures only. *)
Lemma step_without_worker st e :
  (forall msg, e <> FromWorker msg) ->
  Forall (fun t => finalizing t = false) (pending st) ->
  acked (step st e) = acked st /\
  Forall (fun t => finalizing t = false) (pending (step st e)) /\
  exists out, sent (step st e) = sent st ++ out /\
              Forall (fun m => msg_type m = MESSAGE_TYPES.JOB_FAILED) out.
Proof.
  intros Hnw Hnf.
  assert (Hsame : forall st' : state,
            acked st' = acked st -> pending st' = pending st -> sent st' = sent st ->
            acked st' = acked st /\
            Forall (fun t => finalizing t = false) (pending st') /\
            exists out, sent st' = sent st ++ out /\
                        Forall (fun m => msg_type m = MESSAGE_TYPES.JOB_FAILED) out).
  { intros st' Ha Hp Hs. rewrite Hp. split_and!; auto.
    exists []. rewrite app_nil_r. auto. }
  unfold step. destruct (crashed st); [ apply Hsame; reflexivity | ].
  destruct e as [msg|msg|i r|i|ms].
  - unfold onGatsbyMessage. cbn [exec].
    destruct (String.eqb (g_type msg) MESSAGE_TYPES.JOB_CREATED);
      [ | destruct (String.eqb _ _); simpl; apply Hsame; reflexivity ].
    unfold JOB_TYPES. destruct (String.eqb _ _).
    + unfold processImage. destruct (wrong_input_paths _); simpl.
      * split_and!; auto. eexists [_]. split; [ reflexivity | ].
        constructor; [ reflexivity | constructor ].
      * destruct (job_inputPaths _) as [[|first rest]|]; simpl;
          try (apply Hsame; reflexivity).
        split_and!; auto.
        -- apply Forall_app. split; [ exact Hnf | repeat constructor ].
        -- exists []. rewrite app_nil_r. auto.
    + repeat (case_bool_decide; simpl; try (apply Hsame; reflexivity)).
  - exfalso. apply (Hnw msg). reflexivity.
  - destruct (pending st !! i) as [[req k|due c]|] eqn:E; try (apply Hsame; reflexivity).
    pose proof (Forall_delete _ _ i Hnf) as Hd.
    rewrite Forall_lookup in Hnf. specialize (Hnf i _ E).
    destruct k as [c|c|c outs]; try discriminate;
      destruct r as [data|reason]; simpl.
    + destruct (_ <? _); simpl; (split_and!; auto;
        [ apply Forall_app; split; [ exact Hd | repeat constructor ]
        | exists []; rewrite app_nil_r; auto ]).
    + split_and!; auto. exists []. rewrite app_nil_r. auto.
    + split_and!; auto.
      * apply Forall_app. split; [ exact Hd | repeat constructor ].
      * exists []. rewrite app_nil_r. auto.
    + split_and!; auto. exists []. rewrite app_nil_r. auto.
  - destruct (pending st !! i) as [[req k|due c]|] eqn:E; try (apply Hsame; reflexivity).
    destruct (due <=? clock st); [ | apply Hsame; reflexivity ].
    pose proof (Forall_delete _ _ i Hnf) as Hd.
    unfold onTimeout. cbn [exec]. destruct (bool_decide _); simpl.
    + split_and!; auto. eexists [_]. split; [ reflexivity | ].
      constructor; [ reflexivity | constructor ].
    + split_and!; auto. exists []. rewrite app_nil_r. auto.
  - destruct (0 <=? ms); apply Hsame; reflexivity.
Qed.

Lemma not_listening_step r e :
  phase (runner_step r e) <> Listening ->
  exited r = None /\ acked (dispatcher r) = 0%nat /\
  Forall (fun t => finalizing t = false) (pending (dispatcher r)) /\
  Forall (fun m => msg_type m = MESSAGE_TYPES.JOB_FAILED) (sent (dispatcher r)) ->
  exited (runner_step r e) = None /\ acked (dispatcher (runner_step r e)) = 0%nat /\
  Forall (fun t => finalizing t = false) (pending (dispatcher (runner_step r e))) /\
  Forall (fun m => msg_type m = MESSAGE_TYPES.JOB_FAILED)
    (sent (dispatcher (runner_step r e))).
Proof.
  intros Hnl (Hex & Hack & Hnf & Hs).
  assert (Hturn : forall e', (forall msg, e' <> FromWorker msg) ->
            acked (step (dispatcher r) e') = 0%nat /\
            Forall (fun t => finalizing t = false) (pending (step (dispatcher r) e')) /\
            Forall (fun m => msg_type m = MESSAGE_TYPES.JOB_FAILED)
              (sent (step (dispatcher r) e'))).
  { intros e' He'.
    destruct (step_without_worker (dispatcher r) e' He' Hnf) as (Ha & Hp & out & Hso & Hout).
    rewrite Ha, Hso. split_and!; auto. apply Forall_app. auto. }
  revert Hnl. unfold runner_step. destruct (stopped r); [ auto | ].
  destruct e as [res|[d|reason]|c|[msg|msg|i res|i|ms]], (phase r); simpl;
    intros Hnl; auto; try (exfalso; apply Hnl; reflexivity);
    (split; [ exact Hex | apply Hturn; discriminate ]).
Qed.

Lemma not_listening_run events : forall r,
  phase (runner_run r events) <> Listening ->
  exited r = None /\ acked (dispatcher r) = 0%nat /\
  Forall (fun t => finalizing t = false) (pending (dispatcher r)) /\
  Forall (fun m => msg_type m = MESSAGE_TYPES.JOB_FAILED) (sent (dispatcher r)) ->
  exited (runner_run r events) = None /\
  acked (dispatcher (runner_run r events)) = 0%nat /\
  Forall (fun t => finalizing t = false) (pending (dispatcher (runner_run r events))) /\
  Forall (fun m => msg_type m = MESSAGE_TYPES.JOB_FAILED)
    (sent (dispatcher (runner_run r events))).
Proof.
  induction events as [|e rest IH]; simpl; intros r Hnl Hinv; [ exact Hinv | ].
  apply IH; [ exact Hnl | ].
  apply not_listening_step; [ | exact Hinv ].
  intros Hl. apply Hnl. apply listening_stays_run. exact Hl.
Qed.

(** X10.  As long as the subscription has not been created (it is still
    being created, or it was refused, which [createSubscription] only
    logs), no worker message reaches the dispatcher: no job ever
    completes, every outcome the producer gets is a [JOB_FAILED], and the
    runner does not exit when gatsby does. *)
Theorem without_subscription_only_failures now events :
  let r := runner_run (boot now) events in
  phase r <> Listening ->
  exited r = None /\
  acked (dispatcher r) = 0%nat /\
  Forall (fun m => msg_type m = MESSAGE_TYPES.JOB_FAILED) (sent (dispatcher r)).
Proof.
  intros r Hnl.
  destruct (not_listening_run events (boot now) Hnl) as (Hex & Hack & _ & Hs).
  - simpl. split_and!; auto.
  - auto.
Qed.



End Properties.

(** ** The dispatcher on the concrete runs *)

Example base64_rfc4648 :
  base64 (String.list_byte_of_string "foobar") = "Zm9vYmFy" /\
  base64 (String.list_byte_of_string "fooba") = "Zm9vYmE=" /\
  base64 (String.list_byte_of_string "foob") = "Zm9vYg==".
Proof. repeat split. Qed.

Example a1_dispatched_state :
  jobsInProcess a1_dispatched !! "a1" = Some {| c_file := "src/cat.png"; c_msg := job_a1 |} /\
  pending a1_dispatched = [Timer 60000 {| c_file := "src/cat.png"; c_msg := job_a1 |}] /\
  sent a1_dispatched = [] /\
  started a1_dispatched =
    [ReadFile "src/cat.png";
     Publish (Some "gatsby-workers")
       (plain_serialize {| env_file := cat_png; env_action := "{width:200}";
                           env_topic := Some "gatsby-results"; env_id := "a1" |})].
Proof. vm_compute. repeat split. Qed.

(** The scenario of the specification: the worker answers after two seconds,
    the writes succeed, and the producer is told once. *)
Example a1_completed_after_two_seconds :
  let st := sample_run a1_dispatched
              [Elapse 2000; completed "a1"; Settle 1 (Fulfilled []); Elapse 58000; Fire 0] in
  sent st = [completed_message "a1" thumbnails] /\
  jobsInProcess st !! "a1" = None /\ pending st = [].
Proof. vm_compute. repeat split. Qed.

(** C2 on the code: a job with [inputPaths: []] passes the guard of
    [processImage] (an empty array is truthy and its length is not above
    one); reading [msg.inputPaths[0].path] then throws, the promise of
    [processImage] rejects, and the producer is told nothing. *)
Theorem empty_input_paths_not_rejected :
  let msg := {| job_id := "a1"; job_name := "IMAGE_PROCESSING";
                job_inputPaths := Some []; job_outputDir := "public/static";
                job_args := "{width:200}" |} in
  let st := sample_step init (created msg) in
  wrong_input_paths msg = false /\
  sent st = [] /\
  rejections st = [TypeError "Cannot read property 'path' of undefined"] /\
  jobsInProcess st !! "a1" = None /\ started st = [] /\ pending st = [].
Proof. vm_compute. repeat split. Qed.

(** C3 on the code: for a job type that [JOB_TYPES] does not have, the
    listener throws a [ReferenceError] while it builds the message, sends
    nothing, and the exception ends the process: the valid job that follows
    is not served. *)
Theorem unknown_job_type_throws :
  let msg := {| job_id := "a1"; job_name := "UNKNOWN_JOB"; job_inputPaths := None;
                job_outputDir := "public/static"; job_args := "{}" |} in
  let st := sample_step init (created msg) in
  let st' := sample_step st (created job_b2) in
  uncaught st = Some (ReferenceError "JOB_NOT_WHITELISTED") /\
  sent st = [] /\ started st = [] /\
  sent st' = [] /\ started st' = [] /\ pending st' = [].
Proof. vm_compute. repeat split. Qed.

(** A job type named like a member of [Object.prototype] is not refused
    either: the inherited function is called and the request is dropped
    without a word. *)
Remark inherited_job_type_dropped :
  let msg := {| job_id := "a1"; job_name := "toString"; job_inputPaths := None;
                job_outputDir := "public/static"; job_args := "{}" |} in
  let st := sample_step init (created msg) in
  sent st = [] /\ uncaught st = None /\ rejections st = [] /\ started st = [].
Proof. vm_compute. repeat split. Qed.

(** C4 on the code: the callback is registered before the publish is
    attempted; when the publish is rejected the [catch] block logs and
    returns, so the producer is told nothing, the entry stays in
    [jobsInProcess], and no timer exists that would ever remove it. *)
Theorem rejected_publish_leaves_entry :
  let st := sample_step a1_sending (Settle 0 (Rejected "UNAVAILABLE")) in
  pending a1_sending =
    [PendingIo
       (Publish (Some "gatsby-workers")
          (plain_serialize {| env_file := cat_png; env_action := "{width:200}";
                              env_topic := Some "gatsby-results"; env_id := "a1" |}))
       (AfterSend {| c_file := "src/cat.png"; c_msg := job_a1 |})] /\
  sent st = [] /\
  jobsInProcess st !! "a1" = Some {| c_file := "src/cat.png"; c_msg := job_a1 |} /\
  pending st = [] /\
  logged st = logged a1_sending ++ [(Error, "Error during publish: ")] /\
  sent (sample_run st [Elapse 3600000; Fire 0]) = [].
Proof. vm_compute. repeat split. Qed.

(** A completed response keeps the entry.  [a1] is dispatched and the worker answers
    [JOB_COMPLETED] after two seconds, well before the deadline; the writes of
    the finalisation fail.  The response has not removed the entry and has
    reported nothing, and the timer of [a1], when it fires, is not a no-op:
    it sends [JOB_FAILED]. *)
Lemma completed_response_entry_kept :
  let answered :=
    sample_run a1_dispatched [Elapse 2000; completed "a1"; Settle 1 (Rejected "EACCES")] in
  let expired := sample_run answered [Elapse 58000; Fire 0] in
  jobsInProcess answered !! "a1" = Some {| c_file := "src/cat.png"; c_msg := job_a1 |} /\
  sent answered = [] /\
  clock answered = 2000 /\
  sent expired =
    [{| msg_type := "JOB_FAILED";
        msg_payload :=
          FailurePayload "a1" "File failed to process with timeout src/cat.png" |}].
Proof. vm_compute. repeat split. Qed.

(** The entry also stays while the writes are under way, so a duplicate
    [JOB_COMPLETED] that arrives before they finish runs the callback a second
    time and the producer is told twice. *)
Remark duplicate_during_finalization_reported_twice :
  let st := sample_run a1_dispatched
              [completed "a1"; completed "a1"; Settle 1 (Fulfilled []); Settle 1 (Fulfilled [])] in
  sent st = [completed_message "a1" thumbnails; completed_message "a1" thumbnails].
Proof. vm_compute. repeat split. Qed.

(** C1 on the code: a response that arrives before the deadline does not
    resolve the job exactly once.  The [JOB_COMPLETED] branch of
    [pubsubMessageHandler] leaves the entry of the job in the table while the
    callback awaits its writes, and the callback sends [JOB_COMPLETED] after
    the await without looking at the table again.  With [a1] dispatched and
    answered after two seconds, and every write succeeding: a duplicate
    [JOB_COMPLETED] gives two [JOB_COMPLETED]; a [JOB_FAILED] from the worker
    gives [JOB_FAILED] and then [JOB_COMPLETED]; and when the answer comes one
    millisecond before the deadline, the timer of [a1] finds the entry, sends
    [JOB_FAILED], and [JOB_COMPLETED] follows. *)
Theorem response_during_finalization_reported_twice :
  let completed_a1 :=
    {| msg_type := "JOB_COMPLETED";
       msg_payload := ResultPayload "a1" [("cat-200.png", "{width:200}")] |} in
  let answered := sample_run a1_dispatched [Elapse 2000; completed "a1"] in
  let duplicate :=
    sample_run answered
      [Elapse 10; completed "a1"; Settle 1 (Fulfilled []); Settle 1 (Fulfilled [])] in
  let failed_too :=
    sample_run answered [Elapse 10; worker_failed "a1"; Settle 1 (Fulfilled [])] in
  let late := sample_run a1_dispatched [Elapse 59999; completed "a1"] in
  let timed_out := sample_run late [Elapse 1; Fire 0; Settle 0 (Fulfilled [])] in
  (clock a1_dispatched = 0 /\
   sent a1_dispatched = [] /\
   pending a1_dispatched = [Timer 60000 {| c_file := "src/cat.png"; c_msg := job_a1 |}]) /\
  (clock answered = 2000 /\
   sent answered = [] /\
   jobsInProcess answered !! "a1" = Some {| c_file := "src/cat.png"; c_msg := job_a1 |}) /\
  (clock duplicate = 2010 /\
   sent duplicate = [completed_a1; completed_a1]) /\
  (clock failed_too = 2010 /\
   sent failed_too =
     [{| msg_type := "JOB_FAILED";
         msg_payload :=
           ForwardedPayload
             {| p_id := "a1"; p_output := None;
                p_error := Some "sharp: unsupported image format" |} |};
      completed_a1]) /\
  (clock late = 59999 /\
   sent late = [] /\
   clock timed_out = 60000 /\
   sent timed_out =
     [{| msg_type := "JOB_FAILED";
         msg_payload :=
           FailurePayload "a1" "File failed to process with timeout src/cat.png" |};
      completed_a1]) /\
  crashed duplicate = false /\ crashed failed_too = false /\ crashed timed_out = false.
Proof. vm_compute. repeat split. Qed.

(** C5, counterexample.  The writes of [b2] fail with a full disk.  The
    failure is logged, but the job is not resolved: at the deadline the timer
    finds the entry and a failure is sent for [b2]. *)
Lemma failed_finalization_reported_at_timeout :
  let failed_writes := sample_step b2_finalizing (Settle 1 (Rejected "ENOSPC")) in
  let expired := sample_run failed_writes [Elapse 58500; Fire 0] in
  sent failed_writes = [] /\
  logged failed_writes = logged b2_finalizing ++ [(Error, "Failed to execute callback")] /\
  jobsInProcess failed_writes !! "b2" = Some {| c_file := "src/dog.png"; c_msg := job_b2 |} /\
  sent expired =
    [{| msg_type := "JOB_FAILED";
        msg_payload :=
          FailurePayload "b2" "File failed to process with timeout src/dog.png" |}] /\
  jobsInProcess expired !! "b2" = None.
Proof. vm_compute. repeat split. Qed.

(** C8, counterexample.  A second job arrives under the id [a1] while the
    first is in flight.  Its registration raises nothing: the callback of the
    first job is silently replaced. *)
Lemma second_registration_goes_through :
  let again := image_job "a1" "src/dog.png" in
  let st := sample_run a1_sending [created again; Settle 1 (Fulfilled cat_png)] in
  jobsInProcess a1_sending !! "a1" = Some {| c_file := "src/cat.png"; c_msg := job_a1 |} /\
  jobsInProcess st !! "a1" = Some {| c_file := "src/dog.png"; c_msg := again |} /\
  uncaught st = None /\ rejections st = [] /\ sent st = [] /\
  size (jobsInProcess st) = 1%nat.
Proof. vm_compute. repeat split. Qed.

(** C10 on a concrete run. *)
Lemma missing_input_paths_rejected_witness :
  let msg := {| g_type := "JOB_CREATED";
                g_payload := {| job_id := "c3"; job_name := "IMAGE_PROCESSING";
                                job_inputPaths := None; job_outputDir := "public/static";
                                job_args := "{width:200}" |} |} in
  let st' := sample_step a1_dispatched (FromGatsby msg) in
  crashed a1_dispatched = false /\
  sent st' =
    [{| msg_type := "JOB_FAILED";
        msg_payload := FailurePayload "c3" "Wrong number of input paths" |}] /\
  jobsInProcess st' = jobsInProcess a1_dispatched /\
  started st' = started a1_dispatched /\
  pending st' = pending a1_dispatched /\
  uncaught st' = None /\
  rejections st' = [].
Proof.
  split; [ reflexivity | ].
  apply (missing_input_paths_rejected (rt:=sample_runtime) a1_dispatched); reflexivity.
Defined.

Example busy_day_outcomes :
  sent (sample_run init busy_day) =
    [{| msg_type := "JOB_FAILED";
        msg_payload := FailurePayload "c3" "Wrong number of input paths" |};
     {| msg_type := MESSAGE_TYPES.JOB_FAILED;
        msg_payload :=
          ForwardedPayload {| p_id := "a1"; p_output := None;
                              p_error := Some "sharp: unsupported image format" |} |};
     completed_message "b2" thumbnails;
     {| msg_type := "JOB_FAILED";
        msg_payload :=
          FailurePayload "d4" "File failed to process with timeout src/owl.png" |}].
Proof. vm_compute. reflexivity. Qed.

(** C9 on a concrete run. *)
Lemma failure_sent_after_removal_witness :
  fresh_ids (rt:=sample_runtime) init busy_day = true /\
  run_failures_after_removal (rt:=sample_runtime)
    init busy_day.
Proof.
  split; [ vm_compute; reflexivity | ].
  apply failure_sent_after_removal. vm_compute. reflexivity.
Defined.

(** C8 on a concrete run. *)
Lemma registration_replaces_entry_witness :
  let c := {| c_file := "src/dog.png"; c_msg := image_job "a1" "src/dog.png" |} in
  let st' := exec (afterRead (rt:=sample_runtime)
                     c (Fulfilled cat_png)) a1_dispatched in
  jobsInProcess a1_dispatched !! "a1" = Some {| c_file := "src/cat.png"; c_msg := job_a1 |} /\
  jobsInProcess st' !! "a1" = Some c /\
  size (jobsInProcess st') = size (jobsInProcess a1_dispatched) /\
  uncaught st' = None /\ rejections st' = [].
Proof.
  intros c st'.
  assert (Hpre : jobsInProcess a1_dispatched !! job_id (c_msg c)
                 = Some {| c_file := "src/cat.png"; c_msg := job_a1 |})
    by (vm_compute; reflexivity).
  destruct (registration_replaces_entry (rt:=sample_runtime) a1_dispatched c _ cat_png Hpre)
    as (Hnew & _ & Hsize & Hu & Hr & _).
  split_and!; [ exact Hpre | exact Hnew | exact Hsize | exact Hu | exact Hr ].
Defined.

(** C6 on a concrete run. *)
Lemma timeout_reports_once_witness :
  let st2 := sample_run a1_dispatched a_minute_of_b2 in
  let st3 := sample_step st2 (Fire 0) in
  quiet (rt:=sample_runtime)
    "a1" a1_dispatched a_minute_of_b2 = true /\
  pending st2 !! 0%nat = Some (Timer 60000 {| c_file := "src/cat.png"; c_msg := job_a1 |}) /\
  clock st2 = 60000 /\
  outcomes "a1" st2 = [] /\
  outcomes "a1" st3 =
    [{| msg_type := "JOB_FAILED";
        msg_payload :=
          FailurePayload "a1" "File failed to process with timeout src/cat.png" |}] /\
  jobsInProcess st3 !! "a1" = None /\
  outcomes "a1" (sample_run st3 late_answers) =
    [{| msg_type := "JOB_FAILED";
        msg_payload :=
          FailurePayload "a1" "File failed to process with timeout src/cat.png" |}].
Proof.
  intros st2 st3.
  unshelve epose proof
    (timeout_reports_once (rt:=sample_runtime)
       a1_sending 0
       (Publish (Some "gatsby-workers")
          (plain_serialize {| env_file := cat_png; env_action := "{width:200}";
                              env_topic := Some "gatsby-results"; env_id := "a1" |}))
       {| c_file := "src/cat.png"; c_msg := job_a1 |}
       [] a_minute_of_b2 0 late_answers _ _ _ _ _ _ _ _ _) as H.
  1: apply (run_consistent (rt:=sample_runtime) init), consistent_init.
  4: (eexists; vm_compute; reflexivity).
  1-7: (vm_compute; reflexivity).
  destruct H as (_ & Hbefore & Hfire).
  match type of Hfire with
  | if ?b then _ else _ =>
      assert (Hdue : b = true) by (vm_compute; reflexivity); rewrite Hdue in Hfire
  end.
  destruct Hfire as (Hout & Hgone & Hquiet & _).
  split_and!.
  1-4: (vm_compute; reflexivity).
  - etransitivity; [ exact Hout | vm_compute; reflexivity ].
  - exact Hgone.
  - etransitivity; [ exact Hquiet | ].
    etransitivity; [ exact Hout | vm_compute; reflexivity ].
Defined.

(** [response_resolves_once] on a concrete run. *)
Lemma response_resolves_once_witness :
  let failed_st := sample_step a1_dispatched (worker_failed "a1") in
  let st2 := sample_run (sample_step a1_dispatched (completed "a1")) b2_arrives in
  let st3 := sample_step st2 (Settle 1 (Fulfilled [])) in
  tasks_of "a1" (pending a1_dispatched)
    = [Timer 60000 {| c_file := "src/cat.png"; c_msg := job_a1 |}] /\
  (outcomes "a1" failed_st =
     [{| msg_type := MESSAGE_TYPES.JOB_FAILED;
         msg_payload := ForwardedPayload (w_payload (failed_answer "a1")) |}] /\
   jobsInProcess failed_st !! "a1" = None /\
   outcomes "a1" (sample_run failed_st late_answers) = outcomes "a1" failed_st) /\
  (outcomes "a1" st2 = [] /\
   outcomes "a1" st3 = [completed_message "a1" thumbnails] /\
   jobsInProcess st3 !! "a1" = None /\
   outcomes "a1" (sample_run st3 late_answers) = outcomes "a1" st3).
Proof.
  intros failed_st st2 st3.
  assert (Hc : consistent a1_dispatched)
    by apply (run_consistent (rt:=sample_runtime) init [_; _; _]), consistent_init.
  split; [ vm_compute; reflexivity | split ].
  - unshelve epose proof
      (response_resolves_once (rt:=sample_runtime) a1_dispatched (failed_answer "a1")
         {| c_file := "src/cat.png"; c_msg := job_a1 |} late_answers Hc _ _ _ _) as H.
    3: (vm_compute; repeat constructor).
    1-3: (vm_compute; reflexivity).
    destruct H as [H _]. destruct (H eq_refl) as (Hout & Hgone & Hquiet & _).
    split_and!; [ exact Hout | exact Hgone | exact Hquiet ].
  - unshelve epose proof
      (response_resolves_once (rt:=sample_runtime) a1_dispatched (completed_answer "a1")
         {| c_file := "src/cat.png"; c_msg := job_a1 |} late_answers Hc _ _ _ _) as H.
    3: (vm_compute; repeat constructor).
    1-3: (vm_compute; reflexivity).
    destruct H as [_ H].
    unshelve epose proof (H thumbnails b2_arrives 1%nat [] eq_refl eq_refl _ _ _)
      as (Hbefore & Hout & Hgone & Hquiet & _).
    1-3: (vm_compute; reflexivity).
    split_and!; [ exact Hbefore | exact Hout | exact Hgone | exact Hquiet ].
Defined.

(** C5 on a concrete run. *)
Lemma failed_finalization_left_to_timeout_witness :
  let st1 := sample_step b2_finalizing (Settle 1 (Rejected "ENOSPC")) in
  let st2 := sample_run st1 [Elapse 58500] in
  let st3 := sample_step st2 (Fire 0) in
  pending b2_finalizing !! 1%nat =
    Some (PendingIo (WriteOutputs "public/static" thumbnails)
            (AfterWrites {| c_file := "src/dog.png"; c_msg := job_b2 |} thumbnails)) /\
  sent st1 = sent b2_finalizing /\
  jobsInProcess st1 = jobsInProcess b2_finalizing /\
  outcomes "b2" st2 = outcomes "b2" b2_finalizing /\
  jobsInProcess st2 !! "b2" = Some {| c_file := "src/dog.png"; c_msg := job_b2 |} /\
  outcomes "b2" st3 =
    [{| msg_type := "JOB_FAILED";
        msg_payload :=
          FailurePayload "b2" "File failed to process with timeout src/dog.png" |}] /\
  jobsInProcess st3 !! "b2" = None.
Proof.
  intros st1 st2 st3.
  unshelve epose proof
    (failed_finalization_left_to_timeout (rt:=sample_runtime) b2_finalizing 1
       (WriteOutputs "public/static" thumbnails)
       {| c_file := "src/dog.png"; c_msg := job_b2 |} thumbnails "ENOSPC"
       {| c_file := "src/dog.png"; c_msg := job_b2 |} [Elapse 58500] 0 60000
       {| c_file := "src/dog.png"; c_msg := job_b2 |} _ _ _ _ _ _ _ _) as H.
  1: apply (run_consistent (rt:=sample_runtime) init), consistent_init.
  1-7: (vm_compute; reflexivity).
  destruct H as (Hs & Hj & _ & _ & Hbefore & Hkept & Hfire).
  match type of Hfire with
  | if ?b then _ else _ =>
      assert (Hdue : b = true) by (vm_compute; reflexivity); rewrite Hdue in Hfire
  end.
  destruct Hfire as (Hout & Hgone).
  split_and!; [ vm_compute; reflexivity | exact Hs | exact Hj | exact Hbefore | exact Hkept
              | etransitivity; [ exact Hout | vm_compute; reflexivity ] | exact Hgone ].
Defined.

(** C7 on two envelopes: a small one is published, one of exactly 5,242,880
    bytes is saved to the bucket. *)
Lemma transport_by_size_witness :
  let c := {| c_file := "src/cat.png"; c_msg := job_a1 |} in
  let e := {| env_file := cat_png; env_action := "{width:200}";
              env_topic := Some "gatsby-results"; env_id := "a1" |} in
  started (exec (afterRead (rt:=sample_runtime) c (Fulfilled cat_png)) init)
    = [Publish (Some "gatsby-workers") (plain_serialize e)] /\
  Z.of_nat (length (threshold_payload e)) = 5242880 /\
  started (exec (afterRead (rt:=threshold_runtime) c (Fulfilled cat_png)) init)
    = [SaveBlob "event-processing-gatsby-workers" "event-a1" (base64 (threshold_payload e))].
Proof.
  intros c e.
  assert (E : Z.of_nat (length (threshold_payload e)) = 5242880).
  { unfold threshold_payload. rewrite repeat_length, N_nat_Z. reflexivity. }
  split_and!.
  - destruct (transport_by_size (rt:=sample_runtime) init c cat_png) as [H _].
    etransitivity; [ exact H | vm_compute; reflexivity ].
  - exact E.
  - destruct (transport_by_size (rt:=threshold_runtime) init c cat_png) as [H _].
    etransitivity; [ exact H | ].
    cbn [serialize TOPIC WORKER_TOPIC threshold_runtime].
    change (job_args (c_msg c)) with "{width:200}".
    change (job_id (c_msg c)) with "a1".
    fold e. rewrite E. reflexivity.
Defined.

(** ** Further properties on the concrete runs *)

(** X1 on a concrete run: an answer for an id that was never dispatched. *)
Lemma response_without_entry_ignored_witness :
  let st' := sample_step a1_dispatched (completed "zz") in
  jobsInProcess a1_dispatched !! "zz" = None /\
  jobsInProcess st' = jobsInProcess a1_dispatched /\
  pending st' = pending a1_dispatched /\
  sent st' = sent a1_dispatched /\
  acked st' = S (acked a1_dispatched).
Proof.
  intros st'.
  unshelve epose proof
    (response_without_entry_ignored (rt:=sample_runtime) a1_dispatched
       (completed_answer "zz") _ _) as (Hj & Hp & Hs & _ & Ha & _).
  1-2: (vm_compute; reflexivity).
  split_and!; [ vm_compute; reflexivity | exact Hj | exact Hp | exact Hs | exact Ha ].
Defined.

(** X2 on a concrete run: a message of a type the handler does not know, for
    a job in flight. *)
Lemma unknown_worker_message_logged_witness :
  let msg := {| w_type := "JOB_PROGRESS";
                w_payload := {| p_id := "a1"; p_output := None; p_error := None |} |} in
  let st' := sample_step a1_dispatched (FromWorker msg) in
  jobsInProcess st' = jobsInProcess a1_dispatched /\
  pending st' = pending a1_dispatched /\
  sent st' = sent a1_dispatched /\
  uncaught st' = None.
Proof.
  intros msg st'.
  unshelve epose proof
    (unknown_worker_message_logged (rt:=sample_runtime) a1_dispatched msg _ _ _)
    as (Hj & Hp & Hs & _ & _ & Hu).
  1: (vm_compute; reflexivity).
  1-2: (vm_compute; discriminate).
  split_and!; [ exact Hj | exact Hp | exact Hs | exact Hu ].
Defined.

(** X3 on a concrete run: a log message of gatsby. *)
Lemma other_gatsby_message_ignored_witness :
  let msg := {| g_type := MESSAGE_TYPES.LOG_ACTION; g_payload := job_b2 |} in
  let st' := sample_step a1_dispatched (FromGatsby msg) in
  jobsInProcess st' = jobsInProcess a1_dispatched /\
  pending st' = pending a1_dispatched /\
  sent st' = sent a1_dispatched /\
  started st' = started a1_dispatched /\
  logged st' = logged a1_dispatched ++ [(Trace, "Got gatsby message")].
Proof.
  intros msg st'.
  unshelve epose proof
    (other_gatsby_message_ignored (rt:=sample_runtime) a1_dispatched msg _ _)
    as (Hj & Hp & Hs & Hst & _ & _ & Hl).
  1: (vm_compute; reflexivity).
  1: (vm_compute; discriminate).
  split_and!; [ exact Hj | exact Hp | exact Hs | exact Hst | exact Hl ].
Defined.

(** X6 on a concrete run: the file of [b2] is gone when it is read. *)
Lemma failed_read_never_reported_witness :
  let st2 := sample_run (sample_step a1_dispatched (created job_b2)) [Elapse 10] in
  let st3 := sample_step st2 (Settle 1 (Rejected "ENOENT")) in
  let late := [completed "b2"; Elapse 100000; Fire 0; worker_failed "b2"] in
  pending st2 !! 1%nat =
    Some (PendingIo (ReadFile "src/dog.png")
            (AfterRead {| c_file := "src/dog.png"; c_msg := job_b2 |})) /\
  rejections st3 = rejections st2 ++ [IoError "ENOENT"] /\
  started st3 = started st2 /\
  jobsInProcess (sample_run st3 late) !! "b2" = None /\
  outcomes "b2" (sample_run st3 late) = outcomes "b2" a1_dispatched.
Proof.
  intros st2 st3 late.
  unshelve epose proof
    (failed_read_never_reported (rt:=sample_runtime) a1_dispatched (submit job_b2)
       {| ip_path := "src/dog.png" |} [Elapse 10] 1 "ENOENT" late _ _ _ _ _ _ _ _ _ _ _)
    as (Hr & Hst & _ & Hj & Ho).
  1: apply (run_consistent (rt:=sample_runtime) init [_; _; _]), consistent_init.
  1-10: (vm_compute; reflexivity).
  split_and!; [ vm_compute; reflexivity | exact Hr | exact Hst | exact Hj | exact Ho ].
Defined.

(** X7 on a concrete run: [b2] is dispatched while [a1] is answered. *)
Lemma dispatch_registers_then_arms_witness :
  let c := {| c_file := "src/dog.png"; c_msg := job_b2 |} in
  let request :=
    Publish (Some "gatsby-workers")
      (plain_serialize {| env_file := cat_png; env_action := "{width:200}";
                          env_topic := Some "gatsby-results"; env_id := "b2" |}) in
  let st2 := sample_run (sample_step a1_dispatched (created job_b2)) [Elapse 10] in
  let st3 := sample_step st2 (Settle 1 (Fulfilled cat_png)) in
  let st4 := sample_run st3 [completed "a1"] in
  let st5 := sample_step st4 (Settle 1 (Fulfilled [])) in
  jobsInProcess st2 !! "b2" = None /\
  jobsInProcess st3 !! "b2" = Some c /\
  tasks_of "b2" (pending st3) = [PendingIo request (AfterSend c)] /\
  jobsInProcess st5 !! "b2" = Some c /\
  tasks_of "b2" (pending st5) = [Timer 60010 c] /\
  outcomes "b2" st5 = outcomes "b2" a1_dispatched.
Proof.
  intros c request st2 st3 st4 st5.
  unshelve epose proof
    (dispatch_registers_then_arms (rt:=sample_runtime) a1_dispatched (submit job_b2)
       {| ip_path := "src/dog.png" |} [Elapse 10] 1 cat_png [completed "a1"] 1 []
       _ _ _ _ _ _ _ _ _ _ _ _ _)
    as (H2 & H3 & Ht3 & _ & H5 & Ht5 & Ho).
  1: apply (run_consistent (rt:=sample_runtime) init [_; _; _]), consistent_init.
  1-12: (vm_compute; reflexivity).
  split_and!; [ exact H2 | exact H3
              | etransitivity; [ exact Ht3 | vm_compute; reflexivity ]
              | exact H5
              | etransitivity; [ exact Ht5 | vm_compute; reflexivity ]
              | exact Ho ].
Defined.

(** X8 on two start times one millisecond apart. *)
Lemma subName_distinct_witness :
  subName 1700000000000 = "nf-sub-1700000000000" /\
  1700000000000 <> 1700000000001 /\
  subName 1700000000000 <> subName 1700000000001.
Proof.
  split_and!; [ vm_compute; reflexivity | lia | apply subName_distinct; lia ].
Defined.

(** X9 on a concrete run: gatsby fails with code 1 and so does the runner;
    a job submitted afterwards is not served. *)
Lemma runner_exits_with_gatsby_witness :
  let r := runner_run (rt:=sample_runtime) (boot (rt:=sample_runtime) 1700000000000)
             failing_build in
  exited r = Some 1 /\
  started (dispatcher r) = [ReadFile "src/cat.png"] /\
  exists c d,
    GatsbyExit c ∈ failing_build /\
    SubscriptionSettled (Fulfilled d) ∈ failing_build /\
    1 = default 0 c.
Proof.
  intros r.
  assert (Hex : exited r = Some 1) by (vm_compute; reflexivity).
  split_and!; [ exact Hex | vm_compute; reflexivity | ].
  exact (runner_exits_with_gatsby (rt:=sample_runtime) 1700000000000 failing_build 1 Hex).
Defined.

(** X10 on a concrete run: the subscription is refused; the job times out,
    the answer of the worker never arrives, and the runner outlives gatsby. *)
Lemma without_subscription_only_failures_witness :
  let r := runner_run (rt:=sample_runtime) (boot (rt:=sample_runtime) 1700000000000)
             refused_subscription in
  phase r = NotListening /\
  startup_logged r = [(Error, "PERMISSION_DENIED")] /\
  sent (dispatcher r) =
    [{| msg_type := "JOB_FAILED";
        msg_payload :=
          FailurePayload "a1" "File failed to process with timeout src/cat.png" |}] /\
  exited r = None /\
  acked (dispatcher r) = 0%nat /\
  Forall (fun m => msg_type m = MESSAGE_TYPES.JOB_FAILED) (sent (dispatcher r)).
Proof.
  intros r.
  unshelve epose proof
    (without_subscription_only_failures (rt:=sample_runtime) 1700000000000
       refused_subscription _) as (Hex & Hack & Hs).
  1: (vm_compute; discriminate).
  split_and!; [ vm_compute; reflexivity | vm_compute; reflexivity
              | vm_compute; reflexivity | exact Hex | exact Hack | exact Hs ].
Defined.

(** A gatsby ended by a signal reports a null code: the runner exits with 0. *)
Example killed_gatsby_exits_zero :
  exited (runner_run (rt:=sample_runtime) (boot (rt:=sample_runtime) 1700000000000)
            [TopicSettled (Fulfilled []); SubscriptionSettled (Fulfilled []);
             GatsbyExit None]) = Some 0.
Proof. reflexivity. Qed.

(** X13 on two one-byte buffers. *)
Lemma base64_distinct_witness :
  [Byte.x4d] <> [Byte.x4e] /\ base64 [Byte.x4d] <> base64 [Byte.x4e].
Proof.
  assert (H : [Byte.x4d] <> [Byte.x4e]) by discriminate.
  split; [ exact H | exact (base64_distinct _ _ H) ].
Defined.
